(** * craft_text_detector.craft_utils: box extraction, adjacency and polygon fitting

    A shallow embedding of [craft_utils.py].  Pixel scores and coordinates
    that the Python code holds in floating point are exact rationals ([Q])
    here; integer quantities (labels, pixel indices, areas) are [nat] or [Z].
    Python exceptions are values of [pyerror] carried by the [res] monad.
    The OpenCV and math primitives whose results depend on floating-point
    geometry (rotated rectangles, dilation, perspective warps, line
    rasterisation, trigonometry, square roots) are fields of the record
    [CvOps]: the general theorems hold for all instances of it, and the
    runs on concrete inputs use the exact instance [Reference.ops]. *)

From Stdlib Require Import List ZArith QArith Qround Qabs Bool Lia Arith PeanoNat.
From Stdlib Require String Ascii.
From Stdlib Require Import Lqa Sorted.
Import String.StringSyntax.
Delimit Scope string_scope with string.
Import ListNotations.

Set Implicit Arguments.
Close Scope Q_scope.
Open Scope nat_scope.

(** ** Exceptions *)

Inductive pyerror : Type :=
| ValueError   (* numpy broadcasting, reductions of empty arrays *)
| IndexError   (* list index or boolean mask out of range *)
| TypeError    (* an operand that is [None] *)
| LinAlgError. (* numpy.linalg.inv on a singular matrix *)

Inductive res (A : Type) : Type :=
| Ok (a : A)
| Raise (e : pyerror).
Arguments Ok {A} a.
Arguments Raise {A} e.

Definition bind {A B} (m : res A) (f : A -> res B) : res B :=
  match m with
  | Ok a => f a
  | Raise e => Raise e
  end.

Notation "x <- m ;; k" := (bind m (fun x => k))
  (at level 61, m at next level, right associativity).
Notation "' p <- m ;; k" := (bind m (fun x => let p := x in k))
  (at level 61, p pattern, m at next level, right associativity).

(** ** Boolean comparisons on rationals *)

Definition Qltb (x y : Q) : bool := negb (Qle_bool y x).
Definition Qleb (x y : Q) : bool := Qle_bool x y.
Definition Qeqb (x y : Q) : bool := Qeq_bool x y.

(** Python's [int(x)] on a float: truncation towards zero. *)
Definition py_int (x : Q) : Z :=
  if Qle_bool 0%Q x then Qfloor x else Qceiling x.

(** ** Two-dimensional arrays as lists of rows *)

Module Np.

Definition array2 (A : Type) : Type := list (list A).

Definition nrows {A} (m : array2 A) : nat := length m.
Definition ncols {A} (m : array2 A) : nat := length (hd [] m).

(** [rect h w m]: the array has the (h, w) shape of a numpy 2-D array. *)
Definition rect {A} (h w : nat) (m : array2 A) : Prop :=
  map (@length A) m = repeat w h.

Fixpoint list_eqb (l1 l2 : list nat) : bool :=
  match l1, l2 with
  | [], [] => true
  | a :: l1', b :: l2' => Nat.eqb a b && list_eqb l1' l2'
  | _, _ => false
  end.

Definition same_shape {A B} (a : array2 A) (b : array2 B) : bool :=
  list_eqb (map (@length A) a) (map (@length B) b).

(** The array has a dimension of size zero. *)
Definition is_empty {A} (m : array2 A) : bool :=
  Nat.eqb (nrows m) 0 || Nat.eqb (ncols m) 0.

Definition get {A} (d : A) (m : array2 A) (i j : nat) : A :=
  nth j (nth i m []) d.

Fixpoint upd {A} (l : list A) (i : nat) (v : A) : list A :=
  match l, i with
  | [], _ => []
  | _ :: t, O => v :: t
  | a :: t, S i' => a :: upd t i' v
  end.

Definition set {A} (m : array2 A) (i j : nat) (v : A) : array2 A :=
  match nth_error m i with
  | Some r => upd m i (upd r j v)
  | None => m
  end.

Definition full {A} (h w : nat) (v : A) : array2 A := repeat (repeat v w) h.

(** [np.zeros(a.shape)] / [np.zeros_like]: same row lengths, constant content. *)
Definition full_like {A B} (a : array2 A) (v : B) : array2 B :=
  map (fun r => repeat v (length r)) a.

Definition map2 {A B} (f : A -> B) (m : array2 A) : array2 B :=
  map (map f) m.

Fixpoint zip_with {A B C} (f : A -> B -> C) (l1 : list A) (l2 : list B) : list C :=
  match l1, l2 with
  | a :: l1', b :: l2' => f a b :: zip_with f l1' l2'
  | _, _ => []
  end.

(** numpy broadcasting of one dimension: equal, or one of them is 1. *)
Definition bdim (a b : nat) : option nat :=
  if Nat.eqb a b then Some a
  else if Nat.eqb a 1 then Some b
  else if Nat.eqb b 1 then Some a
  else None.

Definition stretch {A} (n : nat) (l : list A) : list A :=
  if Nat.eqb (length l) n then l
  else match l with
       | a :: _ => repeat a n
       | [] => []
       end.

Definition broadcast_to {A} (h w : nat) (m : array2 A) : array2 A :=
  map (stretch w) (stretch h m).

(** Element-wise binary operation with numpy broadcasting; operands that
    cannot be broadcast together raise [ValueError]. *)
Definition binop {A B C} (f : A -> B -> C) (x : array2 A) (y : array2 B)
  : res (array2 C) :=
  match bdim (nrows x) (nrows y), bdim (ncols x) (ncols y) with
  | Some h, Some w =>
      Ok (zip_with (zip_with f) (broadcast_to h w x) (broadcast_to h w y))
  | _, _ => Raise ValueError
  end.

(** [a[mask]]: the values under a boolean mask, in row-major order. The mask
    must have the shape of [a]. *)
Fixpoint select_row {A} (r : list A) (m : list bool) : list A :=
  match r, m with
  | a :: r', b :: m' => if b then a :: select_row r' m' else select_row r' m'
  | _, _ => []
  end.

Definition select {A} (a : array2 A) (mask : array2 bool) : res (list A) :=
  if same_shape a mask then Ok (concat (zip_with select_row a mask))
  else Raise IndexError.

(** [a[mask] = v]. *)
Definition assign_row {A} (v : A) (r : list A) (m : list bool) : list A :=
  zip_with (fun a (b : bool) => if b then v else a) r m.

Definition assign {A} (a : array2 A) (mask : array2 bool) (v : A)
  : res (array2 A) :=
  if same_shape a mask then Ok (zip_with (assign_row v) a mask)
  else Raise IndexError.

(** [np.max] of a flat array; empty input raises [ValueError]. *)
Definition Qmax (x y : Q) : Q := if Qle_bool x y then y else x.
Definition Qmin (x y : Q) : Q := if Qle_bool x y then x else y.

Definition max (l : list Q) : res Q :=
  match l with
  | [] => Raise ValueError
  | a :: t => Ok (fold_left Qmax t a)
  end.

Definition min (l : list Q) : res Q :=
  match l with
  | [] => Raise ValueError
  | a :: t => Ok (fold_left Qmin t a)
  end.

(** [np.mean] over naturals; on an empty array numpy returns nan with a
    warning, here the quotient by zero of [Q] (0). *)
Definition mean_nat (l : list nat) : Q :=
  Qdiv (inject_Z (Z.of_nat (fold_left Nat.add l 0)))
       (inject_Z (Z.of_nat (length l))).

(** [np.clip(a, lo, hi)] *)
Definition clip (lo hi : Q) (m : array2 Q) : array2 Q :=
  map2 (fun v => Qmin (Qmax v lo) hi) m.

(** [np.arange(start, stop, step)] for a positive step:
    ceil((stop - start) / step) values [start + i * step]. *)
Definition arange (start stop step : Q) : list Q :=
  map (fun i => (start + inject_Z (Z.of_nat i) * step)%Q)
      (seq 0 (Z.to_nat (Qceiling ((stop - start) / step)))).

End Np.

(** ** Geometry *)

Definition Point : Type := (Q * Q)%type.

(** A 4x2 array of vertices. *)
Record Box : Type := mkBox { v0 : Point; v1 : Point; v2 : Point; v3 : Point }.

(** [box[i]] for [i] in [range(4)]. *)
Definition vertex (b : Box) (i : nat) : Point :=
  match i with
  | 0 => v0 b
  | 1 => v1 b
  | 2 => v2 b
  | _ => v3 b
  end.

Definition px (p : Point) : Q := fst p.
Definition py (p : Point) : Q := snd p.

(** [box[n:] + box[:n]], which is also [np.roll(box, 4 - n, 0)]. *)
Definition rotate_box (b : Box) (n : nat) : Box :=
  mkBox (vertex b (n mod 4)) (vertex b ((n + 1) mod 4))
        (vertex b ((n + 2) mod 4)) (vertex b ((n + 3) mod 4)).

(** [argmin] over four values: the first index holding the minimum. *)
Definition argmin4 (a b c d : Q) : nat :=
  let m01 := if Qltb b a then (1, b) else (0, a) in
  let m012 := if Qltb c (snd m01) then (2, c) else m01 in
  let m := if Qltb d (snd m012) then (3, d) else m012 in
  fst m.

(** A 3x3 matrix, row-major. *)
Record Mat3 : Type := mkMat3 {
  m00 : Q; m01 : Q; m02 : Q;
  m10 : Q; m11 : Q; m12 : Q;
  m20 : Q; m21 : Q; m22 : Q }.

Definition det3 (m : Mat3) : Q :=
  (m00 m * (m11 m * m22 m - m12 m * m21 m)
   - m01 m * (m10 m * m22 m - m12 m * m20 m)
   + m02 m * (m10 m * m21 m - m11 m * m20 m))%Q.

(** [np.linalg.inv]: raises [LinAlgError] on a singular matrix, otherwise
    the adjugate over the determinant. *)
Definition inv3 (m : Mat3) : res Mat3 :=
  let d := det3 m in
  if Qeqb d 0 then Raise LinAlgError
  else Ok (mkMat3
    ((m11 m * m22 m - m12 m * m21 m) / d)
    ((m02 m * m21 m - m01 m * m22 m) / d)
    ((m01 m * m12 m - m02 m * m11 m) / d)
    ((m12 m * m20 m - m10 m * m22 m) / d)
    ((m00 m * m22 m - m02 m * m20 m) / d)
    ((m02 m * m10 m - m00 m * m12 m) / d)
    ((m10 m * m21 m - m11 m * m20 m) / d)
    ((m01 m * m20 m - m00 m * m21 m) / d)
    ((m00 m * m11 m - m01 m * m10 m) / d))%Q.

(** unwarp coordinates: [np.matmul(Minv, (x, y, 1))] then the projective
    division (numpy yields inf where [Q] yields 0 for a zero divisor). *)
Definition warpCoord (Minv : Mat3) (pt : Point) : Point :=
  let x := px pt in
  let y := py pt in
  let o0 := (m00 Minv * x + m01 Minv * y + m02 Minv)%Q in
  let o1 := (m10 Minv * x + m11 Minv * y + m12 Minv)%Q in
  let o2 := (m20 Minv * x + m21 Minv * y + m22 Minv)%Q in
  ((o0 / o2)%Q, (o1 / o2)%Q).

(** ** OpenCV *)

Module Cv.
Import Np.

(** The primitives of OpenCV and [math] that are not re-derived here. *)
Record CvOps : Type := mkCvOps {
  (* math.sqrt; np.linalg.norm of a 2-vector is sqrt of the sum of squares *)
  sqrt : Q -> Q;
  (* cv2.dilate(window, getStructuringElement(MORPH_RECT, (k, k))) *)
  dilate : array2 Z -> nat -> array2 Z;
  (* cv2.boxPoints(cv2.minAreaRect(points)), points as (x, y) *)
  minAreaRect_boxPoints : list (Z * Z) -> Box;
  (* cv2.getPerspectiveTransform(src, dst) *)
  getPerspectiveTransform : Box -> Box -> Mat3;
  (* cv2.warpPerspective(labels, M, (w, h), flags=INTER_NEAREST): h rows, w columns *)
  warpPerspective : array2 nat -> Mat3 -> nat -> nat -> array2 nat;
  (* pixels (x, y) set by cv2.line(img, p, q, 1, thickness=1) *)
  line : Z * Z -> Z * Z -> list (Z * Z);
  (* math.atan2, math.cos, math.sin *)
  atan2 : Q -> Q -> Q;
  cos : Q -> Q;
  sin : Q -> Q }.

(** [cv2.threshold(src, thresh, maxval, cv2.THRESH_BINARY)[1]]:
    [maxval] where [src > thresh], else 0.  For a source with a dimension of
    size zero OpenCV returns no array ([None]). *)
Definition threshold (src : array2 Q) (thresh maxval : Q) : option (array2 Q) :=
  if is_empty src then None
  else Some (map2 (fun v => if Qltb thresh v then maxval else 0%Q) src).

(** [.astype(np.uint8)] of a float. *)
Definition astype_uint8 (v : Q) : Z := (py_int v mod 256)%Z.

(** *** Connected components, 4-connectivity *)

Record cc_stat : Type := mkStat {
  cc_left : nat; cc_top : nat; cc_width : nat; cc_height : nat; cc_area : nat }.

Definition neighbours4 (p : nat * nat) : list (nat * nat) :=
  let '(i, j) := p in [(i, j + 1); (i + 1, j); (i, j - 1); (i - 1, j)]%nat.

(** Flood fill of the component of the pixels in [work] with label [l].
    Every step either labels a pixel and pushes its four neighbours or pops
    a position, so five steps per pixel and one more are enough fuel. *)
Fixpoint flood (fuel : nat) (img : array2 bool) (lab : array2 nat) (l : nat)
    (work : list (nat * nat)) : array2 nat :=
  match fuel with
  | O => lab
  | S f =>
      match work with
      | [] => lab
      | (i, j) :: rest =>
          if get false img i j && Nat.eqb (get 0%nat lab i j) 0
          then flood f img (set lab i j l) l (neighbours4 (i, j) ++ rest)
          else flood f img lab l rest
      end
  end.

(** Row-major list of the (row, column) positions of an array. *)
Definition coords {A} (m : array2 A) : list (nat * nat) :=
  concat (map (fun ir => map (fun j => (fst ir, j)) (seq 0 (length (snd ir))))
              (combine (seq 0 (length m)) m)).

Definition npixels {A} (m : array2 A) : nat := length (concat m).

Definition label_step (img : array2 bool) (st : nat * array2 nat) (p : nat * nat)
  : nat * array2 nat :=
  let '(n, lab) := st in
  if get false img (fst p) (snd p) && Nat.eqb (get 0%nat lab (fst p) (snd p)) 0
  then (S n, flood (5 * npixels img + 1) img lab (S n) [p])
  else st.

(** Labels in raster order of each component's first pixel; 0 is background. *)
Definition label_image (img : array2 bool) : nat * array2 nat :=
  fold_left (label_step img) (coords img) (0%nat, full_like img 0%nat).

Definition area (lab : array2 nat) (k : nat) : nat :=
  length (filter (fun l => Nat.eqb l k) (concat lab)).

Definition list_min (l : list nat) : nat :=
  match l with [] => 0%nat | a :: t => fold_left Nat.min t a end.
Definition list_max (l : list nat) : nat :=
  match l with [] => 0%nat | a :: t => fold_left Nat.max t a end.

Definition stat_of (lab : array2 nat) (k : nat) : cc_stat :=
  let pix := filter (fun p => Nat.eqb (get 0%nat lab (fst p) (snd p)) k) (coords lab) in
  let xs := map snd pix in
  let ys := map fst pix in
  mkStat (list_min xs) (list_min ys)
         (match pix with [] => 0 | _ => list_max xs - list_min xs + 1 end)%nat
         (match pix with [] => 0 | _ => list_max ys - list_min ys + 1 end)%nat
         (area lab k).

(** [cv2.connectedComponentsWithStats(img, connectivity=4)]: the number of
    labels N (labels 0..N-1, label 0 being the background), the label image
    and one row of statistics per label, background included. *)
Definition connectedComponentsWithStats (img : array2 Z)
  : nat * array2 nat * list cc_stat :=
  let '(n, lab) := label_image (map2 (fun v => negb (Z.eqb v 0)) img) in
  (S n, lab, map (stat_of lab) (seq 0 (S n))).

End Cv.

(** ** craft_utils.py *)

Module Craft.
Import Np Cv.

(** Python list slices and slice assignment. *)
Definition slice {A} (lo hi : nat) (l : list A) : list A :=
  firstn (hi - lo) (skipn lo l).

Fixpoint overlay {A B} (f : A -> B -> B) (src : list A) (dst : list B) : list B :=
  match src, dst with
  | s :: src', d :: dst' => f s d :: overlay f src' dst'
  | _, _ => dst
  end.

(** [m[sy:ey, sx:ex]] *)
Definition window {A} (m : array2 A) (sy ey sx ex : nat) : array2 A :=
  map (slice sx ex) (slice sy ey m).

(** [m[sy:.., sx:..] = sub], [sub] having the shape of the window. *)
Definition paste {A} (m : array2 A) (sy sx : nat) (sub : array2 A) : array2 A :=
  firstn sy m ++
  overlay (fun srow drow => firstn sx drow ++ overlay (fun s _ => s) srow (skipn sx drow))
          sub (skipn sy m).

(** Python's built-in [min] / [max] over a column of integers. *)
Definition min_Z (l : list Z) : res Z :=
  match l with
  | [] => Raise ValueError
  | a :: t => Ok (fold_left Z.min t a)
  end.

Definition max_Z (l : list Z) : res Z :=
  match l with
  | [] => Raise ValueError
  | a :: t => Ok (fold_left Z.max t a)
  end.

Definition enumerate {A} (l : list A) : list (nat * A) :=
  combine (seq 0 (length l)) l.

(** [itertools.permutations(range(n), 2)] *)
Definition permutations2 (n : nat) : list (nat * nat) :=
  flat_map (fun i => map (pair i) (filter (fun j => negb (Nat.eqb i j)) (seq 0 n)))
           (seq 0 n).

(** Truth value of what [compare_boxes] returns: [True], [False] or, when
    the double loop ends without a match, [None]. *)
Definition truthy (r : option bool) : bool :=
  match r with
  | Some b => b
  | None => false
  end.

(** [np.mean(box, axis=0)[1]] *)
Definition centroid_y (b : Box) : Q :=
  ((py (v0 b) + py (v1 b) + py (v2 b) + py (v3 b)) / 4)%Q.
Definition centroid_x (b : Box) : Q :=
  ((px (v0 b) + px (v1 b) + px (v2 b) + px (v3 b)) / 4)%Q.

Definition slope_thresh : Q := (1 # 10)%Q.
Definition min_edge_distance : Q := 10%Q.

(** The body of the double loop of [compare_boxes] for one [(i, j)], [(k, l)]. *)
Definition edges_match (box1 box2 : Box) (ij kl : nat * nat) : bool :=
  let '(i, j) := ij in
  let '(k, l) := kl in
  let den1 := (px (vertex box2 i) - px (vertex box2 j))%Q in
  let den2 := (px (vertex box2 k) - px (vertex box2 l))%Q in
  let slope1 := ((py (vertex box1 i) - py (vertex box1 j))
                 / (if negb (Qeqb den1 0%Q) then den1 else (1 # 1000)))%Q in
  let slope2 := ((py (vertex box1 k) - py (vertex box1 l))
                 / (if negb (Qeqb den2 0%Q) then den2 else (1 # 1000)))%Q in
  let lc1x := ((px (vertex box1 i) + px (vertex box1 j)) / 2)%Q in
  let lc1y := ((py (vertex box1 i) + py (vertex box1 j)) / 2)%Q in
  let lc2x := ((px (vertex box2 j) + px (vertex box2 k)) / 2)%Q in
  let lc2y := ((py (vertex box2 j) + py (vertex box2 k)) / 2)%Q in
  Qltb (Qabs (slope1 - slope2)) slope_thresh
  && Qltb (Qabs (lc1x - lc2x) + Qabs (lc1y - lc2y)) min_edge_distance.

Definition compare_boxes (box1 box2 : Box) : option bool :=
  if Qltb (centroid_y box1) (centroid_y box2) then
    if existsb (fun ij => existsb (edges_match box1 box2 ij) (permutations2 4))
               (permutations2 4)
    then Some true
    else None
  else Some false.

(** The adjacency loop at the end of [getDetBoxes_core]. *)
Definition link_inner (id1 : nat) (box1 : Box) (items : list (nat * (Box * Q)))
    (word_id : list Z) : list Z :=
  fold_left (fun wid it2 =>
               let '(id2, (box2, _)) := it2 in
               if Nat.eqb id1 id2 then wid
               else if truthy (compare_boxes box1 box2)
                    then upd wid id1 (Z.of_nat id2)
                    else wid)
            items word_id.

Definition link_boxes (det : list Box) (avg_character_sizes : list Q) : list Z :=
  let items := enumerate (combine det avg_character_sizes) in
  fold_left (fun wid it1 =>
               let '(id1, (box1, _)) := it1 in
               link_inner id1 box1 items wid)
            items (repeat (-1)%Z (length det)).

Section WithOps.
Variable ops : CvOps.

(** [np.linalg.norm(a - b)] *)
Definition d (a b : Point) : Q :=
  sqrt ops ((px a - px b) * (px a - px b) + (py a - py b) * (py a - py b))%Q.

Definition sort_box (box : Box) : Box :=
  let aymin := argmin4 (py (v0 box)) (py (v1 box)) (py (v2 box)) (py (v3 box)) in
  let tl :=
    if Qltb (d (vertex box ((aymin + 2) mod 4)) (vertex box ((aymin + 1) mod 4)))
            (d (vertex box aymin) (vertex box ((aymin + 1) mod 4)))
    then aymin
    else (aymin + 3) mod 4 in
  rotate_box box tl.

Record core_state : Type := mkCore {
  det : list Box;
  mapper : list nat;
  num_characters : list nat;
  avg_character_sizes : list Q }.

Section Core.
Variables textmap linkmap : array2 Q.
Variables text_threshold link_threshold low_text : Q.

Definition img_h : nat := nrows textmap.
Definition img_w : nat := ncols textmap.

Definition inject_nat (n : nat) : Q := inject_Z (Z.of_nat n).

(** Pixels of [segmap] that are non-zero, as (x, y), row-major. *)
Definition contours (segmap : array2 Z) : list (Z * Z) :=
  map (fun p => (Z.of_nat (snd p), Z.of_nat (fst p)))
      (filter (fun p => negb (Z.eqb (get 0%Z segmap (fst p) (snd p)) 0)) (coords segmap)).

Section Labels.
(** The two binarized maps, once [cv2.threshold] has returned them. *)
Variables text_score link_score : array2 Q.

(** One iteration of [for k in range(1, nLabels)]. *)
Definition component (labels : array2 nat) (stats : list cc_stat) (k : nat)
    (st : core_state) : res core_state :=
  let sk := nth k stats (mkStat 0 0 0 0 0) in
  (* size filtering *)
  let size := cc_area sk in
  if size <? 10 then Ok st else
  (* thresholding *)
  vals <- select textmap (map2 (fun l => Nat.eqb l k) labels) ;;
  mx <- Np.max vals ;;
  if Qltb mx text_threshold then Ok st else
  (* make segmentation map *)
  segmap <- assign (full_like textmap 0%Z) (map2 (fun l => Nat.eqb l k) labels) 255%Z ;;
  (* remove link area *)
  linkarea <- binop andb (map2 (fun v => Qeqb v 1%Q) link_score)
                         (map2 (fun v => Qeqb v 0%Q) text_score) ;;
  segmap <- assign segmap linkarea 0%Z ;;
  (* count number of characters in word segmentation *)
  let '(word_chars, _, word_stats) := connectedComponentsWithStats segmap in
  let avg_character_size := mean_nat (map cc_area word_stats) in
  let x := Z.of_nat (cc_left sk) in
  let y := Z.of_nat (cc_top sk) in
  let w := cc_width sk in
  let h := cc_height sk in
  let niter :=
    py_int (sqrt ops (inject_nat (size * Nat.min w h) / inject_nat (w * h))%Q * 2)%Q in
  let sx := (x - niter)%Z in
  let ex := (x + Z.of_nat w + niter + 1)%Z in
  let sy := (y - niter)%Z in
  let ey := (y + Z.of_nat h + niter + 1)%Z in
  (* boundary check *)
  let sx := if (sx <? 0)%Z then 0%Z else sx in
  let sy := if (sy <? 0)%Z then 0%Z else sy in
  let ex := if (ex >=? Z.of_nat img_w)%Z then Z.of_nat img_w else ex in
  let ey := if (ey >=? Z.of_nat img_h)%Z then Z.of_nat img_h else ey in
  let win := window segmap (Z.to_nat sy) (Z.to_nat ey) (Z.to_nat sx) (Z.to_nat ex) in
  let segmap := paste segmap (Z.to_nat sy) (Z.to_nat sx)
                      (dilate ops win (Z.to_nat (1 + niter))) in
  (* make box *)
  let np_contours := contours segmap in
  let box := minAreaRect_boxPoints ops np_contours in
  (* align diamond-shape *)
  let bw := d (v0 box) (v1 box) in
  let bh := d (v1 box) (v2 box) in
  let box_ratio := (Qmax bw bh / (Qmin bw bh + (1 # 100000)))%Q in
  box <- (if Qleb (Qabs (1 - box_ratio)) (1 # 10) then
            l <- min_Z (map fst np_contours) ;;
            r <- max_Z (map fst np_contours) ;;
            t <- min_Z (map snd np_contours) ;;
            b <- max_Z (map snd np_contours) ;;
            Ok (mkBox (inject_Z l, inject_Z t) (inject_Z r, inject_Z t)
                      (inject_Z r, inject_Z b) (inject_Z l, inject_Z b))
          else Ok box) ;;
  (* make clock-wise order *)
  let startidx :=
    argmin4 (px (v0 box) + py (v0 box)) (px (v1 box) + py (v1 box))
            (px (v2 box) + py (v2 box)) (px (v3 box) + py (v3 box)) in
  let box := rotate_box box startidx in
  Ok (mkCore (det st ++ [sort_box box])
             (mapper st ++ [k])
             (num_characters st ++ [word_chars])
             (avg_character_sizes st ++ [avg_character_size])).

Fixpoint components (labels : array2 nat) (stats : list cc_stat) (ks : list nat)
    (st : core_state) : res core_state :=
  match ks with
  | [] => Ok st
  | k :: ks' =>
      st' <- component labels stats k st ;;
      components labels stats ks' st'
  end.

End Labels.

Definition getDetBoxes_core
  : res (list Box * array2 nat * list nat * list nat * list Q * list Z) :=
  (* labeling method *)
  match threshold textmap low_text 1%Q, threshold linkmap link_threshold 1%Q with
  | Some text_score, Some link_score =>
      sum_score <- binop Qplus text_score link_score ;;
      let text_score_comb := clip 0%Q 1%Q sum_score in
      let '(nLabels, labels, stats) :=
        connectedComponentsWithStats (map2 astype_uint8 text_score_comb) in
      st <- components text_score link_score labels stats (seq 1 (nLabels - 1))
              (mkCore [] [] [] []) ;;
      let word_id := link_boxes (det st) (avg_character_sizes st) in
      Ok (det st, labels, mapper st, num_characters st, avg_character_sizes st, word_id)
  | _, _ =>
      (* [text_score + link_score] where an operand is [None] *)
      Raise TypeError
  end.

End Core.

(** *** getPoly_core *)

Inductive unfit_reason : Type :=
| TooSmall     (* size filter for small instance *)
| Singular     (* np.linalg.inv raised *)
| TooThick     (* max_len is similar to h *)
| FewPivots    (* num of pivots not sufficient, or segment narrower than char height *)
| NoBoundary.  (* boundary of polygon is not found *)

(** What one iteration appends to [polys]: an array of points, or [None];
    the reason of a [None] is kept for the proofs and erased by [to_poly]. *)
Inductive outcome : Type :=
| Fit (poly : list Point)
| Unfit (why : unfit_reason).

Definition to_poly (o : outcome) : option (list Point) :=
  match o with
  | Fit p => Some p
  | Unfit _ => None
  end.

(** configs *)
Definition num_cp : nat := 5.
Definition max_len_ratio : Q := (7 # 10)%Q.
Definition expand_ratio : Q := (145 # 100)%Q.
Definition max_r : Q := 2%Q.
Definition step_r : Q := (2 # 10)%Q.
Definition tot_seg : nat := num_cp * 2 + 1.

(** [l[i]] and [l[i] = v] on a Python list. *)
Definition get_item {A} (l : list A) (i : nat) : res A :=
  match nth_error l i with
  | Some a => Ok a
  | None => Raise IndexError
  end.

Definition set_item {A} (l : list A) (i : nat) (v : A) : res (list A) :=
  if i <? length l then Ok (upd l i v) else Raise IndexError.

(** [np.where(col != 0)[0]] *)
Definition nonzero_rows (col : list nat) : list nat :=
  map fst (filter (fun iv => negb (Nat.eqb (snd iv) 0)) (enumerate col)).

(** find top/bottom contours: the loop over the columns of the strip. *)
Fixpoint find_contours (word_label : array2 nat) (cols : list nat)
    (cp : list (nat * nat * nat)) (max_len : Z) : list (nat * nat * nat) * Z :=
  match cols with
  | [] => (cp, max_len)
  | i :: cols' =>
      let region := nonzero_rows (map (fun r => nth i r 0) word_label) in
      if length region <? 2 then find_contours word_label cols' cp max_len
      else
        let r0 := hd 0 region in
        let r1 := last region 0 in
        let len := (Z.of_nat r1 - Z.of_nat r0 + 1)%Z in
        find_contours word_label cols' (cp ++ [(i, r0, r1)])
                      (if (max_len <? len)%Z then len else max_len)
  end.

Record pivot_state : Type := mkPivot {
  seg_num : nat;
  num_sec : nat;
  prev_h : Z;
  cp_section : list (Q * Q);
  pp : list (option (nat * Q));
  seg_height : list Z }.

(** get pivot points with fixed length: the loop over [cp]; [break] returns
    the state reached. *)
Fixpoint pivot_loop (seg_w : Q) (cp : list (nat * nat * nat)) (st : pivot_state)
  : res pivot_state :=
  match cp with
  | [] => Ok st
  | (x, sy, ey) :: cp' =>
      adv <- (if Qleb (inject_nat (seg_num st + 1) * seg_w)%Q (inject_nat x)
                 && (seg_num st <=? tot_seg)
              then
                if num_sec st =? 0 then Ok None
                else
                  (* average previous segment *)
                  cur <- get_item (cp_section st) (seg_num st) ;;
                  sec <- set_item (cp_section st) (seg_num st)
                           (fst cur / inject_nat (num_sec st),
                            snd cur / inject_nat (num_sec st))%Q ;;
                  (* reset variables *)
                  Ok (Some (mkPivot (seg_num st + 1) 0 (-1)%Z sec (pp st) (seg_height st)))
              else Ok (Some st)) ;;
      match adv with
      | None => Ok st
      | Some st =>
          (* accumulate center points *)
          let cy := (inject_nat (sy + ey) * (1 # 2))%Q in
          let cur_h := (Z.of_nat ey - Z.of_nat sy + 1)%Z in
          cur <- get_item (cp_section st) (seg_num st) ;;
          sec <- set_item (cp_section st) (seg_num st)
                   (fst cur + inject_nat x, snd cur + cy)%Q ;;
          let st := mkPivot (seg_num st) (num_sec st + 1) (prev_h st) sec
                            (pp st) (seg_height st) in
          if seg_num st mod 2 =? 0 then pivot_loop seg_w cp' st
          else if (prev_h st <? cur_h)%Z then
            pp' <- set_item (pp st) ((seg_num st - 1) / 2) (Some (x, cy)) ;;
            sh' <- set_item (seg_height st) ((seg_num st - 1) / 2) cur_h ;;
            pivot_loop seg_w cp'
              (mkPivot (seg_num st) (num_sec st) cur_h (cp_section st) pp' sh')
          else pivot_loop seg_w cp' st
      end
  end.

(** All entries of [pp] when none is [None]. *)
Fixpoint all_some {A} (l : list (option A)) : option (list A) :=
  match l with
  | [] => Some []
  | None :: _ => None
  | Some a :: t =>
      match all_some t with
      | Some t' => Some (a :: t')
      | None => None
      end
  end.

Fixpoint insert_sorted (a : Z) (l : list Z) : list Z :=
  match l with
  | [] => [a]
  | b :: t => if (a <=? b)%Z then a :: l else b :: insert_sorted a t
  end.

(** [np.median] of a list of integers. *)
Definition median (l : list Z) : Q :=
  let s := fold_right insert_sorted [] l in
  let n := length s in
  if n mod 2 =? 1 then inject_Z (nth (n / 2) s 0%Z)
  else ((inject_Z (nth (n / 2 - 1) s 0%Z) + inject_Z (nth (n / 2) s 0%Z)) / 2)%Q.

Definition max_height (l : list Z) : Z :=
  match l with
  | [] => 0%Z
  | a :: t => fold_left Z.max t a
  end.

Definition quad : Type := (Q * Q * Q * Q)%type.

(** calc gradiant and apply to make horizontal pivots; the lists have their
    fixed lengths (5 pivots, 11 sections), so every index is in range. *)
Definition make_new_pp (half_char_h : Q) (sec : list (Q * Q)) (pps : list (nat * Q))
  : list quad :=
  map (fun ip =>
         let '(i, (xn, cy)) := ip in
         let x := inject_nat xn in
         let dx := (fst (nth (i * 2 + 2) sec (0, 0)) - fst (nth (i * 2) sec (0, 0)))%Q in
         let dy := (snd (nth (i * 2 + 2) sec (0, 0)) - snd (nth (i * 2) sec (0, 0)))%Q in
         if Qeqb dx 0%Q then (x, cy - half_char_h, x, cy + half_char_h)%Q
         else
           let rad := (- atan2 ops dy dx)%Q in
           let c := (half_char_h * cos ops rad)%Q in
           let s := (half_char_h * sin ops rad)%Q in
           (x - s, cy - c, x + s, cy + c)%Q)
      (enumerate pps).

(** [np.sum(np.logical_and(word_label, line_img)) != 0] for the line drawn
    between the truncated end points on a zero image of the strip's shape. *)
Definition line_hits (word_label : array2 nat) (p : quad) : bool :=
  let '(p0, p1, p2, p3) := p in
  existsb (fun xy =>
             (0 <=? fst xy)%Z && (0 <=? snd xy)%Z
             && negb (Nat.eqb (get 0 word_label (Z.to_nat (snd xy)) (Z.to_nat (fst xy))) 0))
          (line ops (py_int p0, py_int p1) (py_int p2, py_int p3)).

(** get edge points to cover character heatmaps: the loop over [r]. An end
    is found once its point is bound. *)
Fixpoint cap_search (word_label : array2 nat) (half_char_h grad_s grad_e : Q)
    (first_pp last_pp : quad) (rs : list Q) (spp epp : option quad)
  : option quad * option quad :=
  match rs with
  | [] => (spp, epp)
  | r :: rs' =>
      let dx := (2 * half_char_h * r)%Q in
      let spp :=
        match spp with
        | Some _ => spp
        | None =>
            let dy := (grad_s * dx)%Q in
            let '(a, b, c, e) := first_pp in
            let p := (a - dx, b - dy, c - dx, e - dy)%Q in
            if negb (line_hits word_label p) || Qleb max_r (r + 2 * step_r)%Q
            then Some p else None
        end in
      let epp :=
        match epp with
        | Some _ => epp
        | None =>
            let dy := (grad_e * dx)%Q in
            let '(a, b, c, e) := last_pp in
            let p := (a + dx, b + dy, c + dx, e + dy)%Q in
            if negb (line_hits word_label p) || Qleb max_r (r + 2 * step_r)%Q
            then Some p else None
        end in
      match spp, epp with
      | Some _, Some _ => (spp, epp)
      | _, _ => cap_search word_label half_char_h grad_s grad_e first_pp last_pp rs' spp epp
      end
  end.

Definition radii : list Q := arange (1 # 2)%Q max_r step_r.

(** One iteration of [for k, box in enumerate(boxes)]. *)
Definition getPoly_box (labels : array2 nat) (mapper : list nat) (k : nat) (box : Box)
  : res outcome :=
  (* size filter for small instance *)
  let w := py_int (d (v0 box) (v1 box) + 1)%Q in
  let h := py_int (d (v1 box) (v2 box) + 1)%Q in
  if ((w <? 10) || (h <? 10))%Z then Ok (Unfit TooSmall) else
  (* warp image *)
  let tar := mkBox (0, 0)%Q (inject_Z w, 0)%Q (inject_Z w, inject_Z h) (0, inject_Z h)%Q in
  let M := getPerspectiveTransform ops box tar in
  let word_label := warpPerspective ops labels M (Z.to_nat w) (Z.to_nat h) in
  match inv3 M with
  | Raise _ => Ok (Unfit Singular)
  | Ok Minv =>
      (* binarization for selected label *)
      cur_label <- get_item mapper k ;;
      let word_label := map2 (fun l => if negb (Nat.eqb l cur_label) then 0 else l) word_label in
      let word_label := map2 (fun l => if 0 <? l then 1 else l) word_label in
      (* find top/bottom contours *)
      let '(cp, max_len) := find_contours word_label (seq 0 (Z.to_nat w)) [] (-1)%Z in
      (* pass if max_len is similar to h *)
      if Qltb (inject_Z h * max_len_ratio)%Q (inject_Z max_len) then Ok (Unfit TooThick) else
      (* get pivot points with fixed length *)
      let seg_w := (inject_Z w / inject_nat tot_seg)%Q in
      st <- pivot_loop seg_w cp
              (mkPivot 0 0 (-1)%Z (repeat (0, 0)%Q tot_seg) (repeat None num_cp)
                       (repeat 0%Z num_cp)) ;;
      (* processing last segment *)
      let sec :=
        if negb (num_sec st =? 0) then
          let lastc := last (cp_section st) (0, 0)%Q in
          upd (cp_section st) (length (cp_section st) - 1)
              (fst lastc / inject_nat (num_sec st), snd lastc / inject_nat (num_sec st))%Q
        else cp_section st in
      (* pass if num of pivots is not sufficient or segment width is smaller
         than character height *)
      match all_some (pp st) with
      | None => Ok (Unfit FewPivots)
      | Some pps =>
          if Qltb seg_w (inject_Z (max_height (seg_height st)) * (1 # 4))%Q
          then Ok (Unfit FewPivots) else
          (* calc median maximum of pivot points *)
          let half_char_h := (median (seg_height st) * expand_ratio / 2)%Q in
          let new_pp := make_new_pp half_char_h sec pps in
          (* get edge points to cover character heatmaps *)
          let ppx := fun i => inject_nat (fst (nth i pps (0, 0%Q))) in
          let ppy := fun i => snd (nth i pps (0, 0%Q)) in
          let grad_s := Qplus (Qdiv (Qminus (ppy 1) (ppy 0)) (Qminus (ppx 1) (ppx 0)))
                              (Qdiv (Qminus (ppy 2) (ppy 1)) (Qminus (ppx 2) (ppx 1))) in
          let grad_e := Qplus (Qdiv (Qminus (ppy 3) (ppy 4)) (Qminus (ppx 3) (ppx 4)))
                              (Qdiv (Qminus (ppy 2) (ppy 3)) (Qminus (ppx 2) (ppx 3))) in
          let zq : quad := (0, 0, 0, 0)%Q in
          match cap_search word_label half_char_h grad_s grad_e
                           (hd zq new_pp) (last new_pp zq) radii None None with
          | (Some spp, Some epp) =>
              (* make final polygon *)
              let '(s0, s1, s2, s3) := spp in
              let '(e0, e1, e2, e3) := epp in
              Ok (Fit ([warpCoord Minv (s0, s1)]
                       ++ map (fun p : quad =>
                                 let '(a, b, _, _) := p in warpCoord Minv (a, b)) new_pp
                       ++ [warpCoord Minv (e0, e1); warpCoord Minv (e2, e3)]
                       ++ map (fun p : quad =>
                                 let '(_, _, c, e) := p in warpCoord Minv (c, e)) (rev new_pp)
                       ++ [warpCoord Minv (s2, s3)]))
          | _ =>
              (* pass if boundary of polygon is not found *)
              Ok (Unfit NoBoundary)
          end
      end
  end.

Fixpoint getPoly_from (labels : array2 nat) (mapper : list nat) (k : nat)
    (boxes : list Box) : res (list (option (list Point))) :=
  match boxes with
  | [] => Ok []
  | box :: boxes' =>
      o <- getPoly_box labels mapper k box ;;
      polys <- getPoly_from labels mapper (S k) boxes' ;;
      Ok (to_poly o :: polys)
  end.

(** [linkmap] is accepted and never read. *)
Definition getPoly_core (boxes : list Box) (labels : array2 nat) (mapper : list nat)
    (linkmap : array2 Q) : res (list (option (list Point))) :=
  getPoly_from labels mapper 0 boxes.

(** *** getDetBoxes *)

Record detection : Type := mkDetection {
  r_boxes : list Box;
  r_labels : array2 nat;
  r_mapper : list nat;
  r_num_characters : list nat;
  r_average_character_size : list Q;
  r_word_id : list Z;
  r_polys : list (option (list Point)) }.

Definition getDetBoxes (textmap linkmap : array2 Q)
    (text_threshold link_threshold low_text : Q) (poly : bool) : res detection :=
  core <- getDetBoxes_core textmap linkmap text_threshold link_threshold low_text ;;
  let '(boxes, labels, mapper, num_characters, avg_character_size, word_id) := core in
  polys <- (if poly then getPoly_core boxes labels mapper linkmap
            else Ok (repeat None (length boxes))) ;;
  Ok (mkDetection boxes labels mapper num_characters avg_character_size word_id polys).

End WithOps.

(** *** adjustResultCoordinates *)

(** [np.array(polys)] on a non-empty list: an object array when every entry
    is [None], a numeric array when every entry is an array of one and the
    same shape; any other list (entries of different shapes, or [None] among
    arrays) is refused with [ValueError] ("inhomogeneous shape"). *)
Definition np_array (polys : list (option (list Point)))
  : res (list (option (list Point))) :=
  match polys with
  | [] => Ok []
  | None :: t =>
      if forallb (fun q : option (list Point) =>
                    match q with None => true | Some _ => false end) t
      then Ok polys else Raise ValueError
  | Some p :: t =>
      if forallb (fun q : option (list Point) =>
                    match q with
                    | Some p' => Nat.eqb (length p') (length p)
                    | None => false
                    end) t
      then Ok polys else Raise ValueError
  end.

Definition adjustResultCoordinates (polys : list (option (list Point)))
    (ratio_w ratio_h ratio_net : Q) : res (list (option (list Point))) :=
  if 0 <? length polys then
    polys <- np_array polys ;;
    Ok (map (fun p =>
               match p with
               | Some pts =>
                   Some (map (fun xy => (px xy * (ratio_w * ratio_net),
                                         py xy * (ratio_h * ratio_net))%Q) pts)
               | None => None
               end) polys)
  else Ok polys.

End Craft.

(** ** An executable instance of the primitives

    Exact rational arithmetic where OpenCV uses floating point: exact on
    axis-aligned rectangles with integer corners, and a truncation to six
    decimals (square roots) or to the first terms of the series (angles)
    elsewhere.  It is used to run the model on concrete inputs. *)

Module Reference.
Import Np Cv Craft.

(** Square root, exact whenever the argument is the square of a rational. *)
Definition sqrt6 (x : Q) : Q :=
  let n := Qnum x in
  let dn := Zpos (Qden x) in
  Qred (Qmake (Z.sqrt (n * dn * 10 ^ 12)) (Z.to_pos (dn * 10 ^ 6))).

(** Dilation by a k x k rectangle anchored at its centre (k / 2). *)
Definition dilate_rect (img : array2 Z) (k : nat) : array2 Z :=
  let offs := map (fun o => (Z.of_nat o - Z.of_nat (k / 2))%Z) (seq 0 k) in
  map (fun ir =>
         map (fun j =>
                fold_left Z.max
                  (flat_map (fun di =>
                     map (fun dj =>
                            let i' := (Z.of_nat (fst ir) + di)%Z in
                            let j' := (Z.of_nat j + dj)%Z in
                            if ((0 <=? i') && (0 <=? j'))%Z
                            then get 0%Z img (Z.to_nat i') (Z.to_nat j')
                            else 0%Z) offs) offs)
                  0%Z)
             (seq 0 (length (snd ir))))
      (enumerate img).

(** The bounding rectangle of the points, in the vertex order of boxPoints
    for an upright rectangle: bottom-left, top-left, top-right, bottom-right. *)
Definition bounding_box (pts : list (Z * Z)) : Box :=
  match pts with
  | [] => mkBox (0, 0)%Q (0, 0)%Q (0, 0)%Q (0, 0)%Q
  | p :: t =>
      let l := inject_Z (fold_left Z.min (map fst t) (fst p)) in
      let r := inject_Z (fold_left Z.max (map fst t) (fst p)) in
      let tp := inject_Z (fold_left Z.min (map snd t) (snd p)) in
      let b := inject_Z (fold_left Z.max (map snd t) (snd p)) in
      mkBox (l, b) (l, tp) (r, tp) (r, b)
  end.

(** Gauss-Jordan elimination on an augmented matrix. *)
Fixpoint find_pivot (col : nat) (rows : list (list Q))
  : option (list Q * list (list Q)) :=
  match rows with
  | [] => None
  | r :: rs =>
      if negb (Qeqb (nth col r 0%Q) 0%Q) then Some (r, rs)
      else match find_pivot col rs with
           | Some (p, rest) => Some (p, r :: rest)
           | None => None
           end
  end.

Fixpoint gauss_jordan (n col : nat) (done todo : list (list Q))
  : option (list (list Q)) :=
  match n with
  | 0 => Some done
  | S n' =>
      match find_pivot col todo with
      | None => None
      | Some (p, rest) =>
          let p' := map (fun a => Qred (a / nth col p 0%Q)) p in
          let elim := fun r =>
            zip_with (fun a b => Qred (a - nth col r 0%Q * b)) r p' in
          gauss_jordan n' (S col) (map elim done ++ [p']) (map elim rest)
      end
  end.

(** The homography sending the four source vertices to the destination
    ones; the zero matrix with a unit corner when the system is singular. *)
Definition perspective (src dst : Box) : Mat3 :=
  let eqs :=
    flat_map (fun i =>
      let x := px (vertex src i) in
      let y := py (vertex src i) in
      let u := px (vertex dst i) in
      let v := py (vertex dst i) in
      [[x; y; 1; 0; 0; 0; - (u * x); - (u * y); u];
       [0; 0; 0; x; y; 1; - (v * x); - (v * y); v]]%Q) (seq 0 4) in
  match gauss_jordan 8 0 [] eqs with
  | Some rows =>
      let c := fun i => nth 8 (nth i rows []) 0%Q in
      mkMat3 (c 0) (c 1) (c 2) (c 3) (c 4) (c 5) (c 6) (c 7) 1%Q
  | None => mkMat3 0 0 0 0 0 0 0 0 1
  end.

Definition round_half_up (x : Q) : Z := Qfloor (x + (1 # 2))%Q.

(** Nearest-neighbour warp, constant zero border. *)
Definition warp_nearest (src : array2 nat) (M : Mat3) (w h : nat) : array2 nat :=
  match inv3 M with
  | Raise _ => full h w 0
  | Ok Minv =>
      map (fun y =>
             map (fun x =>
                    let p := warpCoord Minv (inject_nat x, inject_nat y) in
                    let sx := round_half_up (px p) in
                    let sy := round_half_up (py p) in
                    if ((0 <=? sx) && (0 <=? sy))%Z
                    then get 0 src (Z.to_nat sy) (Z.to_nat sx)
                    else 0)
                 (seq 0 w))
          (seq 0 h)
  end.

(** The pixels of a segment, one per step along its longer axis. *)
Definition segment (p q : Z * Z) : list (Z * Z) :=
  let dx := (fst q - fst p)%Z in
  let dy := (snd q - snd p)%Z in
  let n := Z.max (Z.abs dx) (Z.abs dy) in
  map (fun i =>
         let t := Z.of_nat i in
         ((fst p + round_half_up (inject_Z (t * dx) / inject_Z n))%Z,
          (snd p + round_half_up (inject_Z (t * dy) / inject_Z n))%Z))
      (seq 0 (S (Z.to_nat n))).

(** First terms of the series of the angle functions. *)
Definition atan2_approx (y x : Q) : Q := Qred (y / x - (y / x) * (y / x) * (y / x) / 3)%Q.
Definition cos_approx (t : Q) : Q := Qred (1 - t * t / 2)%Q.
Definition sin_approx (t : Q) : Q := Qred (t - t * t * t / 6)%Q.

Definition ops : CvOps :=
  mkCvOps sqrt6 dilate_rect bounding_box perspective warp_nearest segment
          atan2_approx cos_approx sin_approx.

End Reference.

(** ** Concrete inputs *)

Module Inputs.
Import Np Craft.

(** An [h] x [w] map that is [v] on the rectangle of [rh] rows and [rw]
    columns whose top-left pixel is (top, left), and 0 elsewhere. *)
Definition rect_map (h w top left rh rw : nat) (v : Q) : array2 Q :=
  map (fun i =>
         map (fun j =>
                if (top <=? i) && (i <? top + rh) && (left <=? j) && (j <? left + rw)
                then v else 0%Q)
             (seq 0 w))
      (seq 0 h).

Definition zero_map (h w : nat) : array2 Q := full h w 0%Q.

(** Scenario A: one isolated 30 x 14 rectangle of score 1 in a 20 x 40 map. *)
Definition scenarioA_text : array2 Q := rect_map 20 40 3 5 14 30 1%Q.
Definition scenarioA_link : array2 Q := zero_map 20 40.

End Inputs.

(** ** Predicates and reference definitions used by the properties *)

Module Spec.
Import Np Cv Craft.

(** What the adjacency loop keeps true of [word_id], [n] being [len(det)]. *)
Definition word_id_ok (n : nat) (wid : list Z) : Prop :=
  length wid = n /\
  forall i v, nth_error wid i = Some v ->
    v = (-1)%Z \/ ((0 <= v < Z.of_nat n)%Z /\ v <> Z.of_nat i).

(** The four per-box lists of [getDetBoxes_core] grow together. *)
Definition core_aligned (st : core_state) : Prop :=
  length (det st) = length (mapper st)
  /\ length (det st) = length (num_characters st)
  /\ length (det st) = length (avg_character_sizes st).

(** The adjacency test as the specification words it: box i lies above
    box j, and some edge of box i and some edge of box j, each given by an
    ordered pair of distinct vertex indices of its own box, have slopes
    closer than 0.1 and midpoints closer than 10 in L1 distance.  A vertical
    edge takes the source's divisor 0.001. *)
Definition edge_slope (b : Box) (i j : nat) : Q :=
  let den := (px (vertex b i) - px (vertex b j))%Q in
  ((py (vertex b i) - py (vertex b j))
   / (if negb (Qeqb den 0%Q) then den else (1 # 1000)))%Q.

Definition edge_mid (b : Box) (i j : nat) : Point :=
  (((px (vertex b i) + px (vertex b j)) / 2)%Q,
   ((py (vertex b i) + py (vertex b j)) / 2)%Q).

Definition l1_dist (p q : Point) : Q :=
  (Qabs (px p - px q) + Qabs (py p - py q))%Q.

Definition is_above_spec (bi bj : Box) : bool :=
  Qltb (centroid_y bi) (centroid_y bj)
  && existsb (fun ij =>
       existsb (fun kl =>
         Qltb (Qabs (edge_slope bi (fst ij) (snd ij) - edge_slope bj (fst kl) (snd kl)))
              (1 # 10)
         && Qltb (l1_dist (edge_mid bi (fst ij) (snd ij)) (edge_mid bj (fst kl) (snd kl)))
                 10%Q)
       (permutations2 4)) (permutations2 4).

(** The last [j], in iteration order and different from [i], that the
    specification's test accepts for box [i]; -1 when there is none. *)
Definition word_id_spec (boxes : list Box) (i : nat) : Z :=
  fold_left (fun acc jb =>
               if negb (Nat.eqb i (fst jb))
                  && is_above_spec (nth i boxes (snd jb)) (snd jb)
               then Z.of_nat (fst jb) else acc)
            (enumerate boxes) (-1)%Z.

(** What the inner adjacency loop leaves at position [id1], started from
    [init]: the last [id2 <> id1] in iteration order whose box
    [compare_boxes] accepts. *)
Definition last_match (items : list (nat * (Box * Q))) (id1 : nat) (box1 : Box)
    (init : Z) : Z :=
  fold_left (fun acc (it2 : nat * (Box * Q)) =>
               if negb (Nat.eqb id1 (fst it2))
                  && truthy (compare_boxes box1 (fst (snd it2)))
               then Z.of_nat (fst it2) else acc)
            items init.

(** The transform that [getPoly_core] builds for a box. *)
Definition box_w (ops : CvOps) (box : Box) : Z := py_int (d ops (v0 box) (v1 box) + 1)%Q.
Definition box_h (ops : CvOps) (box : Box) : Z := py_int (d ops (v1 box) (v2 box) + 1)%Q.
Definition transform_of (ops : CvOps) (box : Box) : Mat3 :=
  let w := box_w ops box in
  let h := box_h ops box in
  getPerspectiveTransform ops box
    (mkBox (0, 0)%Q (inject_Z w, 0)%Q (inject_Z w, inject_Z h) (0, inject_Z h)%Q).

(** The segmentation mask of label [k] after the link-only pixels are
    removed, as [getDetBoxes_core] builds it before counting characters. *)
Definition cleaned_segmap (tm lm : array2 Q) (link_threshold low_text : Q)
    (labels : array2 nat) (k : nat) : res (array2 Z) :=
  match threshold tm low_text 1%Q, threshold lm link_threshold 1%Q with
  | Some text_score, Some link_score =>
      segmap <- assign (full_like tm 0%Z) (map2 (fun l => Nat.eqb l k) labels) 255%Z ;;
      linkarea <- binop andb (map2 (fun v => Qeqb v 1%Q) link_score)
                             (map2 (fun v => Qeqb v 0%Q) text_score) ;;
      assign segmap linkarea 0%Z
  | _, _ => Raise TypeError
  end.

(** Number of 4-connected components of the non-zero pixels of a mask. *)
Definition count_components (segmap : array2 Z) : nat :=
  fst (label_image (map2 (fun v => negb (Z.eqb v 0)) segmap)).

(** Foreground pixels that the flood fill has not labelled yet. *)
Definition unlabelled (img : array2 bool) (lab : array2 nat) : nat :=
  length (filter (fun p => get false img (fst p) (snd p)
                           && Nat.eqb (get 0 lab (fst p) (snd p)) 0)
                 (coords img)).

(** The scaling applied by [adjustResultCoordinates] to one entry. *)
Definition rescale_entry (ratio_w ratio_h ratio_net : Q) (p : option (list Point))
  : option (list Point) :=
  option_map (map (fun xy => (px xy * (ratio_w * ratio_net),
                              py xy * (ratio_h * ratio_net))%Q)) p.

End Spec.

(** Further concrete inputs. *)

Module Examples.
Import Np Cv Craft.

(** Two text lines of height 20 stacked 5 pixels apart. *)
Definition stacked_top : Box := mkBox (0, 0)%Q (100, 0)%Q (100, 20)%Q (0, 20)%Q.
Definition stacked_bottom : Box := mkBox (0, 25)%Q (100, 25)%Q (100, 45)%Q (0, 45)%Q.

(** A 12 x 10 label image whose rows 5 and 6 carry label 1, and an upright
    box over it whose horizontal edges have length 9. *)
Definition stripe_labels : array2 nat :=
  map (fun i => repeat (if (5 <=? i) && (i <=? 6) then 1 else 0) 10) (seq 0 12).
Definition narrow_box : Box := mkBox (0, 0)%Q (9, 0)%Q (9, 11)%Q (0, 11)%Q.

(** A box of width 5. *)
Definition tiny_box : Box := mkBox (0, 0)%Q (5, 0)%Q (5, 30)%Q (0, 30)%Q.

(** Four collinear vertices: no homography sends them to a rectangle. *)
Definition flat_box : Box := mkBox (0, 0)%Q (20, 0)%Q (40, 0)%Q (60, 0)%Q.

(** An 8 x 10 text map with one 3 x 5 blob of score 1. *)
Definition blob_text : array2 Q := Inputs.rect_map 8 10 2 2 3 5 1%Q.
Definition blob_link : array2 Q := Inputs.zero_map 8 10.

(** A 12 x 12 text map with two 2 x 7 blobs, rows 2-3 and rows 7-8. *)
Definition two_lines_text : array2 Q :=
  zip_with (zip_with Qplus) (Inputs.rect_map 12 12 2 2 2 7 1%Q)
                            (Inputs.rect_map 12 12 7 2 2 7 1%Q).
Definition two_lines_link : array2 Q := Inputs.zero_map 12 12.

Definition two_lines_result : detection :=
  Eval vm_compute in
    match getDetBoxes Reference.ops two_lines_text two_lines_link
                      (7 # 10) (4 # 10) (4 # 10) true with
    | Ok r => r
    | Raise _ => mkDetection [] [] [] [] [] [] []
    end.

(** What [getDetBoxes] returns on the blob, polygons requested. *)
Definition blob_result : detection :=
  Eval vm_compute in
    match getDetBoxes Reference.ops blob_text blob_link (7 # 10) (4 # 10) (4 # 10) true with
    | Ok r => r
    | Raise _ => mkDetection [] [] [] [] [] [] []
    end.

End Examples.

(** ** copyStateDict *)

Module StateDict.

Local Open Scope string_scope.

(** The character ".". *)
Definition dot : Ascii.ascii := Ascii.ascii_of_nat 46.

(** [s.split(".")]: the pieces between the dots, empty pieces included. *)
Fixpoint split_dot (s : String.string) : list String.string :=
  match s with
  | String.EmptyString => [String.EmptyString]
  | String.String c s' =>
      if Ascii.eqb c dot then String.EmptyString :: split_dot s'
      else match split_dot s' with
           | h :: t => String.String c h :: t
           | [] => [String.String c String.EmptyString]
           end
  end.

(** [".".join(l)] *)
Fixpoint join_dot (l : list String.string) : String.string :=
  match l with
  | [] => String.EmptyString
  | a :: t =>
      match t with
      | [] => a
      | _ :: _ => String.append a (String.String dot (join_dot t))
      end
  end.

(** An [OrderedDict] is the list of its items in insertion order, with
    unique keys.  [d[k] = v] replaces the value of an existing key in place
    and appends a new key at the end. *)
Fixpoint od_set {V} (d : list (String.string * V)) (k : String.string) (v : V)
  : list (String.string * V) :=
  match d with
  | [] => [(k, v)]
  | (k', v') :: d' =>
      if String.eqb k' k then (k', v) :: d' else (k', v') :: od_set d' k v
  end.

(** [d.get(k)] *)
Fixpoint od_get {V} (d : list (String.string * V)) (k : String.string) : option V :=
  match d with
  | [] => None
  | (k', v') :: d' => if String.eqb k' k then Some v' else od_get d' k
  end.

(** [".".join(k.split(".")[start_idx:])] *)
Definition rename (start_idx : nat) (k : String.string) : String.string :=
  join_dot (skipn start_idx (split_dot k)).

Definition copyStateDict {V} (state_dict : list (String.string * V))
  : res (list (String.string * V)) :=
  match state_dict with
  | [] => Raise IndexError
  | (k0, _) :: _ =>
      let start_idx := if String.prefix "module" k0 then 1 else 0 in
      Ok (fold_left (fun new_state_dict kv =>
                       od_set new_state_dict (rename start_idx (fst kv)) (snd kv))
                    state_dict [])
  end.

End StateDict.

(** ** Reference definitions for the further properties *)

Module Spec2.
Import Np Cv Craft StateDict.

(** The value that the last item renamed to [name] carries, if any. *)
Definition last_value {V} (start_idx : nat) (items : list (String.string * V))
    (name : String.string) : option V :=
  fold_left (fun acc kv =>
               if String.eqb (rename start_idx (fst kv)) name then Some (snd kv) else acc)
            items None.

(** The string contains no ".". *)
Fixpoint no_dot (s : String.string) : bool :=
  match s with
  | String.EmptyString => true
  | String.String c s' => negb (Ascii.eqb c dot) && no_dot s'
  end.

(** A small state dict saved from a [DataParallel] model. *)
Definition parallel_dict : list (String.string * nat) :=
  [("module.conv1.weight"%string, 1); ("module.conv1.bias"%string, 2);
   ("module.fc.weight"%string, 3)].

(** A state dict whose keys carry no prefix. *)
Definition plain_dict : list (String.string * nat) :=
  [("conv1.weight"%string, 1); ("conv1.bias"%string, 2); ("fc"%string, 3)].

End Spec2.

(** ** Predicates on the result of the box extraction *)

Module Spec3.
Import Np Cv Craft.

(** The first or the second vertex of the box is a topmost one. *)
Definition top_first (b : Box) : Prop :=
  (forall i, (py (v0 b) <= py (vertex b i))%Q)
  \/ (forall i, (py (v1 b) <= py (vertex b i))%Q).

(** Label [k] passed the two filters of the per-label loop. *)
Definition kept_ok (tm : array2 Q) (tt : Q) (labels : array2 nat)
    (stats : list cc_stat) (k : nat) : Prop :=
  10 <= cc_area (nth k stats (mkStat 0 0 0 0 0))
  /\ exists vals mx,
       select tm (map2 (fun l => Nat.eqb l k) labels) = Ok vals
       /\ Np.max vals = Ok mx
       /\ Qltb mx tt = false.

(** A transform with a projective row. *)
Definition tilt : Mat3 := mkMat3 1 0 3 0 2 0 (1 # 10) 0 1.

Definition tilt_inv : Mat3 :=
  Eval vm_compute in
    match inv3 tilt with
    | Ok m => m
    | Raise _ => tilt
    end.

(** The polygons fitted to the narrow box over the stripe. *)
Definition narrow_polys : list (option (list Point)) :=
  Eval vm_compute in
    match getPoly_core Reference.ops [Examples.narrow_box] Examples.stripe_labels [1] [] with
    | Ok polys => polys
    | Raise _ => []
    end.

(** A 4 x 5 text map of low scores. *)
Definition faint_text : array2 Q := full 4 5 (3 # 10)%Q.
Definition faint_link : array2 Q := full 4 5 (2 # 10)%Q.

End Spec3.

(** * Properties *)

Import Np Cv Craft Spec.

(** ** Rational comparisons *)

Lemma Qltb_lt x y : Qltb x y = true <-> (x < y)%Q.
Proof.
  unfold Qltb. rewrite negb_true_iff. split; intro H.
  - apply Qnot_le_lt. intro L. apply Qle_bool_iff in L. congruence.
  - destruct (Qle_bool y x) eqn:E; [|reflexivity].
    apply Qle_bool_iff in E. exfalso. exact (Qlt_not_le _ _ H E).
Qed.

Lemma Qltb_ge x y : Qltb x y = false <-> (y <= x)%Q.
Proof.
  unfold Qltb. rewrite negb_false_iff. apply Qle_bool_iff.
Qed.


(** ** Lists updated by index *)

Lemma upd_length {A} (l : list A) i v : length (upd l i v) = length l.
Proof.
  revert i; induction l as [|a l IH]; intros [|i]; simpl; auto.
Qed.

Lemma nth_error_upd_same {A} (l : list A) i v :
  i < length l -> nth_error (upd l i v) i = Some v.
Proof.
  revert i; induction l as [|a l IH]; intros [|i] H; simpl in *; try lia; auto.
  apply IH; lia.
Qed.

Lemma nth_error_upd_other {A} (l : list A) i j v :
  i <> j -> nth_error (upd l i v) j = nth_error l j.
Proof.
  revert i j; induction l as [|a l IH]; intros [|i] [|j] H; simpl; auto; try congruence.
Qed.

Lemma In_enumerate {A} (l : list A) i x :
  In (i, x) (enumerate l) -> i < length l.
Proof.
  unfold enumerate. intro H. apply in_combine_l in H. apply in_seq in H. lia.
Qed.

(** ** The adjacency loop *)

Lemma word_id_ok_init n : word_id_ok n (repeat (-1)%Z n).
Proof.
  split; [apply repeat_length|].
  intros i v H. left. apply nth_error_In, repeat_spec in H. exact H.
Qed.

Lemma word_id_ok_upd n wid id1 id2 :
  word_id_ok n wid -> id1 <> id2 -> id2 < n ->
  word_id_ok n (upd wid id1 (Z.of_nat id2)).
Proof.
  intros [Hl Hv] Hne Hlt. split; [rewrite upd_length; exact Hl|].
  intros i v H. destruct (Nat.eq_dec id1 i) as [->|Hd].
  - assert (Hi : i < length wid).
    { rewrite <- (upd_length wid i (Z.of_nat id2)). apply nth_error_Some. congruence. }
    rewrite nth_error_upd_same in H by exact Hi.
    injection H as <-. right. split; lia.
  - rewrite nth_error_upd_other in H by exact Hd. eauto.
Qed.

Lemma link_inner_ok n id1 box1 items wid :
  (forall id2 it, In (id2, it) items -> id2 < n) ->
  word_id_ok n wid -> word_id_ok n (link_inner id1 box1 items wid).
Proof.
  unfold link_inner. revert wid.
  induction items as [|[id2 [box2 s2]] items IH]; intros wid Hin Hok; simpl; auto.
  apply IH; [intros; eapply Hin; right; eauto|].
  destruct (Nat.eqb id1 id2) eqn:E; auto.
  destruct (truthy (compare_boxes box1 box2)); auto.
  apply word_id_ok_upd; auto.
  - apply Nat.eqb_neq; exact E.
  - eapply Hin; left; reflexivity.
Qed.

Lemma link_boxes_ok boxes sizes : word_id_ok (length boxes) (link_boxes boxes sizes).
Proof.
  unfold link_boxes.
  set (items := enumerate (combine boxes sizes)).
  assert (Hin : forall id2 it, In (id2, it) items -> id2 < length boxes).
  { intros id2 it H. apply In_enumerate in H.
    rewrite length_combine in H. lia. }
  assert (G : forall (outer : list (nat * (Box * Q))) wid,
            word_id_ok (length boxes) wid ->
            word_id_ok (length boxes)
              (fold_left (fun wid (it1 : nat * (Box * Q)) =>
                 let '(id1, (box1, _)) := it1 in link_inner id1 box1 items wid)
                 outer wid)).
  { induction outer as [|[id1 [box1 s1]] outer IH]; intros wid Hok; simpl; auto.
    apply IH. apply link_inner_ok; auto. }
  apply G, word_id_ok_init.
Qed.

(** ** The end-cap search *)

Lemma cap_search_found (ops : CvOps) wl hch gs ge fp lp rs spp epp :
  (exists r, In r rs /\ Qleb max_r (r + 2 * step_r)%Q = true) ->
  exists s e, cap_search ops wl hch gs ge fp lp rs spp epp = (Some s, Some e).
Proof.
  destruct fp as [[[a1 b1] c1] e1]. destruct lp as [[[a2 b2] c2] e2].
  revert spp epp. induction rs as [|r rs IH]; intros spp epp [r0 [Hin Hfb]].
  - destruct Hin.
  - simpl. destruct Hin as [->|Hin].
    + rewrite Hfb, !orb_true_r.
      destruct spp as [s|]; destruct epp as [e|]; eauto.
    + destruct spp as [s|]; destruct epp as [e|]; eauto;
        repeat match goal with
               | |- context [if ?c then Some ?p else None] => destruct c
               end; eauto.
Qed.

Lemma radii_reach_fallback :
  exists r, In r radii /\ Qleb max_r (r + 2 * step_r)%Q = true.
Proof.
  exists (nth 6 radii 0%Q). split.
  - vm_compute. do 6 right. left. reflexivity.
  - vm_compute. reflexivity.
Qed.

(** ** The per-label loop of getDetBoxes_core *)

Lemma bind_Ok {A B} (a : A) (f : A -> res B) : bind (Ok a) f = f a.
Proof. reflexivity. Qed.

Lemma bind_Raise {A B} e (f : A -> res B) : bind (Raise e) f = Raise e.
Proof. reflexivity. Qed.

(** One step through a computation known to return: name the value of the
    first bind, or split on the first test. *)
Ltac res_step H :=
  match type of H with
  | bind ?m _ = Ok _ =>
      let E := fresh "E" in
      destruct m eqn:E;
      [rewrite bind_Ok in H; cbv beta in H
      |rewrite bind_Raise in H; discriminate H]
  | (if ?c then _ else _) = Ok _ => let E := fresh "E" in destruct c eqn:E
  end.

(** An iteration leaves the state alone ([continue]) or appends one entry
    to each of the four lists. *)
Lemma component_cases ops tm tt ts ls labels stats k st st' :
  component ops tm tt ts ls labels stats k st = Ok st' ->
  st' = st \/
  exists box chars avg,
    st' = mkCore (det st ++ [box]) (mapper st ++ [k])
                 (num_characters st ++ [chars]) (avg_character_sizes st ++ [avg]).
Proof.
  unfold component. intro H.
  res_step H; [left; congruence|].
  res_step H. res_step H.
  res_step H; [left; congruence|].
  res_step H. res_step H. res_step H.
  destruct (connectedComponentsWithStats a3) as [[wc wl] ws].
  res_step H. injection H as <-. right. eauto.
Qed.

Lemma component_aligned ops tm tt ts ls labels stats k st st' :
  component ops tm tt ts ls labels stats k st = Ok st' ->
  core_aligned st -> core_aligned st'.
Proof.
  intros H A. apply component_cases in H.
  destruct H as [->|(box & c & a & ->)]; [exact A|].
  destruct A as (A1 & A2 & A3). unfold core_aligned; simpl.
  rewrite !length_app; simpl. lia.
Qed.

Lemma components_aligned ops tm tt ts ls labels stats ks st st' :
  components ops tm tt ts ls labels stats ks st = Ok st' ->
  core_aligned st -> core_aligned st'.
Proof.
  revert st. induction ks as [|k ks IH]; intros st H A; simpl in H.
  - injection H as <-. exact A.
  - res_step H. eapply IH; eauto using component_aligned.
Qed.

(** A map with a dimension of size zero has no thresholded image, and only
    such a map. *)
Lemma threshold_Some src thresh maxval :
  is_empty src = false ->
  threshold src thresh maxval
  = Some (map2 (fun v => if Qltb thresh v then maxval else 0%Q) src).
Proof. unfold threshold. intros ->. reflexivity. Qed.

Lemma threshold_None src thresh maxval :
  is_empty src = true -> threshold src thresh maxval = None.
Proof. unfold threshold. intros ->. reflexivity. Qed.

Lemma threshold_inv src thresh maxval dst :
  threshold src thresh maxval = Some dst ->
  is_empty src = false
  /\ dst = map2 (fun v => if Qltb thresh v then maxval else 0%Q) src.
Proof.
  unfold threshold. destruct (is_empty src); [discriminate|].
  intros [= <-]. auto.
Qed.

(** A returning [getDetBoxes_core] has got both binarized maps. *)
Lemma getDetBoxes_core_thresholds ops tm lm tt lt low r :
  getDetBoxes_core ops tm lm tt lt low = Ok r ->
  exists ts ls,
    threshold tm low 1%Q = Some ts /\ threshold lm lt 1%Q = Some ls
    /\ (sum_score <- binop Qplus ts ls ;;
        let '(nLabels, labels, stats) :=
          connectedComponentsWithStats
            (map2 astype_uint8 (clip 0%Q 1%Q sum_score)) in
        st <- components ops tm tt ts ls labels stats (seq 1 (nLabels - 1))
                (mkCore [] [] [] []) ;;
        let word_id := link_boxes (det st) (avg_character_sizes st) in
        Ok (det st, labels, mapper st, num_characters st,
            avg_character_sizes st, word_id)) = Ok r.
Proof.
  unfold getDetBoxes_core. intro H.
  destruct (threshold tm low 1%Q) as [ts|]; [|discriminate H].
  destruct (threshold lm lt 1%Q) as [ls|]; [|discriminate H].
  exists ts, ls. auto.
Qed.

Lemma getDetBoxes_core_lengths ops tm lm tt lt low boxes labels mapper nc acs wid :
  getDetBoxes_core ops tm lm tt lt low = Ok (boxes, labels, mapper, nc, acs, wid) ->
  length boxes = length mapper /\ length boxes = length nc
  /\ length boxes = length acs /\ wid = link_boxes boxes acs.
Proof.
  intro H. apply getDetBoxes_core_thresholds in H.
  destruct H as (ts & ls & _ & _ & H).
  res_step H.
  destruct (connectedComponentsWithStats _) as [[n lab] stats].
  res_step H. injection H as <- <- <- <- <- <-.
  apply components_aligned in E0; [|repeat split; reflexivity].
  destruct E0 as (A1 & A2 & A3). auto.
Qed.

Lemma getPoly_from_length ops labels mapper boxes : forall k polys,
  getPoly_from ops labels mapper k boxes = Ok polys -> length polys = length boxes.
Proof.
  induction boxes as [|b boxes IH]; intros k polys H; simpl in H.
  - injection H as <-. reflexivity.
  - res_step H. res_step H. injection H as <-. simpl. f_equal. eauto.
Qed.

(** C1. Whenever [getDetBoxes] returns its record, with polygons requested
    or not, the six per-box fields have one length:
    len(boxes) = len(mapper) = len(num_characters)
    = len(average_character_size) = len(word_id) = len(polys). *)
Theorem getDetBoxes_lengths ops tm lm tt lt low poly r :
  getDetBoxes ops tm lm tt lt low poly = Ok r ->
  length (r_boxes r) = length (r_mapper r)
  /\ length (r_mapper r) = length (r_num_characters r)
  /\ length (r_num_characters r) = length (r_average_character_size r)
  /\ length (r_average_character_size r) = length (r_word_id r)
  /\ length (r_word_id r) = length (r_polys r).
Proof.
  unfold getDetBoxes. intro H. res_step H.
  destruct a as [[[[[boxes labels] mapper] nc] acs] wid].
  apply getDetBoxes_core_lengths in E. destruct E as (L1 & L2 & L3 & ->).
  res_step H. injection H as <-. simpl.
  pose proof (link_boxes_ok boxes acs) as [Lw _].
  assert (Lp : length a = length boxes).
  { destruct poly.
    - unfold getPoly_core in E. eapply getPoly_from_length; eauto.
    - injection E as <-. apply repeat_length. }
  repeat split; congruence.
Qed.

(** C5. In every record returned by [getDetBoxes], each entry word_id[i] is
    -1 or an index into boxes other than i. *)
Theorem getDetBoxes_word_id_range ops tm lm tt lt low poly r :
  getDetBoxes ops tm lm tt lt low poly = Ok r ->
  forall i v, nth_error (r_word_id r) i = Some v ->
    v = (-1)%Z
    \/ ((0 <= v < Z.of_nat (length (r_boxes r)))%Z /\ v <> Z.of_nat i).
Proof.
  unfold getDetBoxes. intro H. res_step H.
  destruct a as [[[[[boxes labels] mapper] nc] acs] wid].
  apply getDetBoxes_core_lengths in E. destruct E as (_ & _ & _ & ->).
  res_step H. injection H as <-. simpl.
  exact (proj2 (link_boxes_ok boxes acs)).
Qed.

(** [np.array] refuses every list that holds both [None] and a polygon. *)
Lemma np_array_mixed polys pts :
  In None polys -> In (Some pts) polys -> np_array polys = Raise ValueError.
Proof.
  intros HN HS. destruct polys as [|[p|] t]; simpl.
  - destruct HN.
  - destruct HN as [HN|HN]; [discriminate|].
    destruct (forallb _ t) eqn:F; [|reflexivity].
    rewrite forallb_forall in F. specialize (F _ HN). discriminate.
  - destruct HS as [HS|HS]; [discriminate|].
    destruct (forallb _ t) eqn:F; [|reflexivity].
    rewrite forallb_forall in F. specialize (F _ HS). discriminate.
Qed.

(** A list that [np.array] accepts is returned as it is. *)
Lemma np_array_Ok polys a : np_array polys = Ok a -> a = polys.
Proof.
  destruct polys as [|[p|] t]; simpl.
  - congruence.
  - destruct (forallb _ t); congruence.
  - destruct (forallb _ t); congruence.
Qed.

Lemma np_array_all_None n : np_array (repeat None n) = Ok (repeat None n).
Proof.
  destruct n as [|n]; [reflexivity|]. simpl.
  replace (forallb _ (repeat None n)) with true; [reflexivity|].
  symmetry. apply forallb_forall. intros x Hx.
  apply repeat_spec in Hx. subst x. reflexivity.
Qed.

(** C8 (the code fails the claim). The loop of [adjustResultCoordinates]
    guards each entry with [is not None], but the conversion
    [np.array(polys)] before the loop refuses every list that holds both a
    polygon and [None]: on [[(1, 1)], None] with ratios (2, 2, 2) the call
    raises ValueError, where the claim promises [[(4, 4)], None].  So does
    every call on a list with a polygon and a [None] entry.  Whenever the
    call returns, it has scaled x by ratio_w * ratio_net and y by
    ratio_h * ratio_net in the polygons and kept the [None] entries; the empty
    list gives the empty list, a list of [None] is returned unchanged, and
    ratios (2, 2, 2) send the point (1, 1) to (4, 4). *)
Theorem adjustResultCoordinates_rejects_mixed :
  adjustResultCoordinates [Some [(1, 1)%Q]; None] 2%Q 2%Q 2%Q = Raise ValueError
  /\ (forall polys pts rw rh rn,
        In None polys -> In (Some pts) polys ->
        adjustResultCoordinates polys rw rh rn = Raise ValueError)
  /\ (forall polys rw rh rn out,
        adjustResultCoordinates polys rw rh rn = Ok out ->
        out = map (rescale_entry rw rh rn) polys)
  /\ (forall rw rh rn, adjustResultCoordinates [] rw rh rn = Ok [])
  /\ (forall n rw rh rn,
        adjustResultCoordinates (repeat None n) rw rh rn = Ok (repeat None n))
  /\ adjustResultCoordinates [Some [(1, 1)%Q]] 2%Q 2%Q 2%Q = Ok [Some [(4, 4)%Q]].
Proof.
  split; [reflexivity|]. split; [|split; [|split; [|split]]].
  - intros polys pts rw rh rn HN HS. unfold adjustResultCoordinates.
    destruct polys as [|p t]; [destruct HN|].
    change (0 <? length (p :: t)) with true. cbv iota.
    rewrite (@np_array_mixed _ _ HN HS). reflexivity.
  - intros polys rw rh rn out H. unfold adjustResultCoordinates in H.
    destruct polys as [|p t]; [injection H as <-; reflexivity|].
    change (0 <? length (p :: t)) with true in H. cbv iota in H.
    res_step H. apply np_array_Ok in E. subst a.
    injection H as <-. reflexivity.
  - reflexivity.
  - intros n rw rh rn. unfold adjustResultCoordinates.
    destruct n as [|n]; [reflexivity|].
    change (0 <? length (repeat None (S n))) with true. cbv iota.
    rewrite np_array_all_None, bind_Ok. f_equal.
    rewrite map_repeat. reflexivity.
  - reflexivity.
Qed.

(** C10. The radius loop of the end-cap search always binds both the start
    cap and the end cap (the fallback r + 2 * step_r >= max_r holds at
    r = 1.7, the seventh radius tested), so no box is rejected for a
    boundary that was not found. *)
Theorem end_caps_always_found ops :
  (forall word_label half_char_h grad_s grad_e first_pp last_pp,
     exists spp epp,
       cap_search ops word_label half_char_h grad_s grad_e first_pp last_pp
                  radii None None = (Some spp, Some epp))
  /\ (forall labels mapper k box,
        getPoly_box ops labels mapper k box <> Ok (Unfit NoBoundary)).
Proof.
  split.
  - intros. apply cap_search_found. exact radii_reach_fallback.
  - intros labels mapper k box H. unfold getPoly_box in H.
    res_step H; [discriminate|].
    destruct (inv3 _) as [Minv|]; [|discriminate].
    res_step H.
    destruct (find_contours _ _ _ _) as [cp max_len].
    res_step H; [discriminate|].
    res_step H.
    destruct (all_some (pp a0)) as [pps|]; [|discriminate].
    res_step H; [discriminate|].
    match type of H with
    | context [cap_search ?o ?wl ?hc ?gs ?ge ?fp ?lp radii None None] =>
        destruct (@cap_search_found o wl hc gs ge fp lp radii None None radii_reach_fallback)
          as (s & e & Hc); rewrite Hc in H
    end.
    destruct s as [[[s0 s1] s2] s3]. destruct e as [[[e0 e1] e2] e3].
    discriminate.
Qed.

(** ** The adjacency loop, entry by entry *)

Lemma nth_error_upd {A} (l : list A) i j v :
  nth_error (upd l i v) j
  = if Nat.eqb j i then option_map (fun _ => v) (nth_error l i) else nth_error l j.
Proof.
  destruct (Nat.eqb j i) eqn:E.
  - apply Nat.eqb_eq in E. subst j.
    destruct (nth_error l i) as [a|] eqn:N; simpl.
    + apply nth_error_upd_same. apply nth_error_Some. congruence.
    + apply nth_error_None. rewrite upd_length. apply nth_error_None. exact N.
  - apply Nat.eqb_neq in E. apply nth_error_upd_other. congruence.
Qed.

Lemma link_inner_nth id1 box1 items : forall wid j,
  nth_error (link_inner id1 box1 items wid) j
  = if Nat.eqb j id1
    then option_map (last_match items id1 box1) (nth_error wid id1)
    else nth_error wid j.
Proof.
  unfold link_inner, last_match.
  induction items as [|[id2 [box2 s2]] items IH]; intros wid j; simpl.
  - destruct (Nat.eqb j id1) eqn:E; [|reflexivity].
    apply Nat.eqb_eq in E. subst j. destruct (nth_error wid id1); reflexivity.
  - rewrite IH. destruct (Nat.eqb id1 id2); simpl; [reflexivity|].
    destruct (truthy (compare_boxes box1 box2)); [|reflexivity].
    rewrite !nth_error_upd, Nat.eqb_refl.
    destruct (Nat.eqb j id1); [|reflexivity].
    destruct (nth_error wid id1); reflexivity.
Qed.

Lemma link_outer_nth items (l : list (Box * Q)) : forall k wid i,
  nth_error
    (fold_left (fun wid (it1 : nat * (Box * Q)) =>
                  let '(id1, (box1, _)) := it1 in link_inner id1 box1 items wid)
               (combine (seq k (length l)) l) wid) i
  = match (if k <=? i then nth_error l (i - k) else None) with
    | Some (bi, _) => option_map (last_match items i bi) (nth_error wid i)
    | None => nth_error wid i
    end.
Proof.
  induction l as [|[b s] l IH]; intros k wid i; simpl.
  - destruct (k <=? i); [destruct (i - k)|]; reflexivity.
  - rewrite IH, !link_inner_nth.
    destruct (Nat.eqb i k) eqn:E.
    + apply Nat.eqb_eq in E. subst i.
      replace (S k <=? k) with false by (symmetry; apply Nat.leb_gt; lia).
      rewrite Nat.leb_refl, Nat.sub_diag. reflexivity.
    + apply Nat.eqb_neq in E.
      destruct (k <=? i) eqn:L.
      * apply Nat.leb_le in L.
        replace (S k <=? i) with true by (symmetry; apply Nat.leb_le; lia).
        destruct (i - k) as [|m] eqn:D; [lia|].
        replace (i - S k) with m by lia. reflexivity.
      * apply Nat.leb_gt in L.
        replace (S k <=? i) with false by (symmetry; apply Nat.leb_gt; lia).
        reflexivity.
Qed.

(** Last writer wins: the entry of box [i] is the last [j <> i], in
    iteration order, for which [compare_boxes] is true, and -1 if none. *)
Lemma link_boxes_last_writer boxes sizes i bi si :
  nth_error (combine boxes sizes) i = Some (bi, si) ->
  nth_error (link_boxes boxes sizes) i
  = Some (last_match (enumerate (combine boxes sizes)) i bi (-1)%Z).
Proof.
  intro H. unfold link_boxes. unfold enumerate at 2.
  rewrite link_outer_nth. simpl. rewrite Nat.sub_0_r, H.
  assert (Hi : i < length boxes).
  { assert (i < length (combine boxes sizes)) by (apply nth_error_Some; congruence).
    rewrite length_combine in *. lia. }
  rewrite (nth_error_nth' _ (-1)%Z) by (rewrite repeat_length; exact Hi).
  rewrite nth_repeat. reflexivity.
Qed.

(** [compare_boxes] is true only for a box lying above the other. *)
Lemma compare_boxes_true_above box1 box2 :
  truthy (compare_boxes box1 box2) = true ->
  (centroid_y box1 < centroid_y box2)%Q.
Proof.
  unfold compare_boxes. destruct (Qltb _ _) eqn:E; [|discriminate].
  intros _. apply Qltb_lt. exact E.
Qed.

Lemma inv3_singular_iff (m : Mat3) :
  inv3 m = Raise LinAlgError <-> (det3 m == 0)%Q.
Proof.
  unfold inv3, Qeqb. destruct (Qeq_bool (det3 m) 0) eqn:E.
  - apply Qeq_bool_iff in E. tauto.
  - split; [discriminate|]. intro H. apply Qeq_bool_iff in H. congruence.
Qed.

(** ** Truncation *)

Lemma py_int_lt_iff (x : Q) (n : Z) :
  (0 < n)%Z -> ((py_int x <? n)%Z = true <-> (x < inject_Z n)%Q).
Proof.
  intro Hn. rewrite Z.ltb_lt. unfold py_int.
  destruct (Qle_bool 0%Q x) eqn:E.
  - split; intro H.
    + apply Qlt_le_trans with (inject_Z (Qfloor x + 1)); [apply Qlt_floor|].
      rewrite <- Zle_Qle. lia.
    + rewrite Zlt_Qlt. apply Qle_lt_trans with x; [apply Qfloor_le|exact H].
  - assert (Hx : (x < 0)%Q).
    { apply Qnot_le_lt. intro L. apply Qle_bool_iff in L. congruence. }
    split; intro H.
    + apply Qlt_trans with 0%Q; [exact Hx|].
      change 0%Q with (inject_Z 0). rewrite <- Zlt_Qlt. exact Hn.
    + assert (Hc : (Qceiling x <= 0)%Z).
      { unfold Qceiling.
        assert (0 <= Qfloor (- x))%Z; [|lia].
        change 0%Z with (Qfloor 0). apply Qfloor_resp_le.
        apply Qlt_le_weak. rewrite <- (Qopp_opp x) in Hx.
        apply Qopp_lt_compat in Hx. rewrite Qopp_opp in Hx. exact Hx. }
      lia.
Qed.

(** ** getPoly_core, box by box *)

Lemma getPoly_from_app ops labels mapper pre post : forall k,
  getPoly_from ops labels mapper k (pre ++ post) =
  (ps1 <- getPoly_from ops labels mapper k pre ;;
   ps2 <- getPoly_from ops labels mapper (k + length pre) post ;;
   Ok (ps1 ++ ps2)).
Proof.
  induction pre as [|b pre IH]; intro k; simpl.
  - rewrite Nat.add_0_r.
    destruct (getPoly_from ops labels mapper k post); reflexivity.
  - destruct (getPoly_box ops labels mapper k b) as [o|e]; [|reflexivity].
    rewrite !bind_Ok. rewrite IH.
    destruct (getPoly_from ops labels mapper (S k) pre) as [ps1|e]; [|reflexivity].
    rewrite !bind_Ok.
    replace (k + S (length pre)) with (S k + length pre) by lia.
    destruct (getPoly_from ops labels mapper (S k + length pre) post); reflexivity.
Qed.

Lemma size_filter_iff ops labels mapper k box :
  getPoly_box ops labels mapper k box = Ok (Unfit TooSmall)
  <-> ((box_w ops box <? 10) || (box_h ops box <? 10))%Z = true.
Proof.
  unfold getPoly_box, box_w, box_h.
  destruct ((_ <? 10)%Z || (_ <? 10)%Z) eqn:E; [tauto|].
  split; [|discriminate]. intro H.
  destruct (inv3 _) as [Minv|]; [|discriminate].
  res_step H.
  destruct (find_contours _ _ _ _) as [cp max_len].
  res_step H; [discriminate|].
  res_step H.
  destruct (all_some (pp a0)) as [pps|]; [|discriminate].
  res_step H; [discriminate|].
  destruct (cap_search _ _ _ _ _ _ _ _ _ _) as [[[[[? ?] ?] ?]|] [[[[? ?] ?] ?]|]];
    discriminate.
Qed.

Lemma singular_box_unfit ops labels mapper k box :
  (det3 (transform_of ops box) == 0)%Q ->
  exists why, getPoly_box ops labels mapper k box = Ok (Unfit why).
Proof.
  intro Hs. unfold getPoly_box.
  destruct ((_ <? 10)%Z || (_ <? 10)%Z); [eauto|].
  fold (box_w ops box). fold (box_h ops box).
  change (getPerspectiveTransform ops box _) with (transform_of ops box).
  unfold inv3. unfold Qeqb.
  apply Qeq_bool_iff in Hs. rewrite Hs. eauto.
Qed.

(** C4 (code evaluated at the failing input). For two upright 100 x 20
    boxes stacked 5 pixels apart the specification's test holds (the bottom
    edge of the upper box and the top edge of the lower one are parallel and
    their midpoints are 5 apart), so word_id[0] should be 1; [compare_boxes]
    finds no match and [word_id] stays [-1, -1].  The index pairs iterated
    per box number 12. *)
Theorem stacked_lines_not_linked :
  length (permutations2 4) = 12
  /\ is_above_spec Examples.stacked_top Examples.stacked_bottom = true
  /\ word_id_spec [Examples.stacked_top; Examples.stacked_bottom] 0 = 1%Z
  /\ compare_boxes Examples.stacked_top Examples.stacked_bottom = None
  /\ forall s1 s2,
       link_boxes [Examples.stacked_top; Examples.stacked_bottom] [s1; s2]
       = [(-1)%Z; (-1)%Z].
Proof.
  repeat split; try (vm_compute; reflexivity).
Qed.

(** C6 (as amended). The size filter works on the pixel extents
    w = int(|b0 - b1| + 1) and h = int(|b1 - b2| + 1): a box is marked unfit
    by it exactly when |b0 - b1| + 1 < 10 or |b1 - b2| + 1 < 10, that is when
    one of these two edges is shorter than 9; the entry is then [None]. *)
Theorem small_box_unfit ops labels mapper k box :
  (getPoly_box ops labels mapper k box = Ok (Unfit TooSmall)
   <-> ((d ops (v0 box) (v1 box) < 9)%Q \/ (d ops (v1 box) (v2 box) < 9)%Q))
  /\ (((d ops (v0 box) (v1 box) < 9)%Q \/ (d ops (v1 box) (v2 box) < 9)%Q) ->
      getPoly_from ops labels mapper k [box] = Ok [None]).
Proof.
  assert (E : forall x : Q, (x + 1 < inject_Z 10)%Q <-> (x < 9)%Q).
  { intro x. change (inject_Z 10) with (9 + 1)%Q. split; intro H.
    - apply Qplus_lt_l in H. exact H.
    - apply Qplus_lt_l. exact H. }
  assert (I : getPoly_box ops labels mapper k box = Ok (Unfit TooSmall)
   <-> ((d ops (v0 box) (v1 box) < 9)%Q \/ (d ops (v1 box) (v2 box) < 9)%Q)).
  { rewrite size_filter_iff, orb_true_iff. unfold box_w, box_h.
    rewrite !py_int_lt_iff by lia. rewrite !E. tauto. }
  split; [exact I|].
  intro H. apply I in H. simpl. rewrite H. reflexivity.
Qed.

(** C6 (the claim as stated fails). A box whose horizontal edges have
    length 9, less than 10, over a two-pixel-thick stripe: w = int(9 + 1) = 10
    passes the size filter and a 14-point polygon is returned. *)
Lemma narrow_box_is_fitted :
  (d Reference.ops (v0 Examples.narrow_box) (v1 Examples.narrow_box) < 10)%Q
  /\ exists poly,
       getPoly_core Reference.ops [Examples.narrow_box] Examples.stripe_labels [1] []
       = Ok [Some poly]
       /\ length poly = 14.
Proof.
  split; [vm_compute; reflexivity|].
  eexists. split; [vm_compute; reflexivity|reflexivity].
Qed.

(** C9. A box whose perspective transform is singular gets the entry
    [None], whatever precedes and follows it, and the boxes around it are
    processed as if it were not there: the run over [pre ++ box :: post] is
    the run over [pre], [None], and the run over [post] at the indices that
    follow. *)
Theorem singular_transform_is_local ops labels mapper k pre box post :
  (det3 (transform_of ops box) == 0)%Q ->
  getPoly_from ops labels mapper k (pre ++ box :: post) =
  (ps1 <- getPoly_from ops labels mapper k pre ;;
   ps2 <- getPoly_from ops labels mapper (k + length pre + 1) post ;;
   Ok (ps1 ++ None :: ps2)).
Proof.
  intro Hs. rewrite getPoly_from_app.
  destruct (getPoly_from ops labels mapper k pre) as [ps1|e]; [|reflexivity].
  rewrite !bind_Ok. simpl.
  destruct (singular_box_unfit ops labels mapper (k + length pre) box Hs) as [why ->].
  rewrite bind_Ok. simpl.
  replace (S (k + length pre)) with (k + length pre + 1) by lia.
  destruct (getPoly_from ops labels mapper (k + length pre + 1) post); reflexivity.
Qed.

Lemma singular_transform_is_local_witness :
  (det3 (transform_of Reference.ops Examples.flat_box) == 0)%Q
  /\ getPoly_from Reference.ops Examples.stripe_labels [1; 1; 1] 0
       ([Examples.narrow_box] ++ Examples.flat_box :: [Examples.narrow_box]) =
     (ps1 <- getPoly_from Reference.ops Examples.stripe_labels [1; 1; 1] 0
               [Examples.narrow_box] ;;
      ps2 <- getPoly_from Reference.ops Examples.stripe_labels [1; 1; 1]
               (0 + length [Examples.narrow_box] + 1) [Examples.narrow_box] ;;
      Ok (ps1 ++ None :: ps2)).
Proof.
  assert (Hs : (det3 (transform_of Reference.ops Examples.flat_box) == 0)%Q)
    by (vm_compute; reflexivity).
  split; [exact Hs|].
  exact (singular_transform_is_local Reference.ops Examples.stripe_labels [1; 1; 1] 0
           [Examples.narrow_box] Examples.flat_box [Examples.narrow_box] Hs).
Defined.

(** ** Shapes *)

Lemma map2_lengths {A B} (f : A -> B) (m : array2 A) :
  map (@length B) (map2 f m) = map (@length A) m.
Proof.
  unfold map2. rewrite map_map. apply map_ext. intro r. apply length_map.
Qed.

Lemma nrows_map2 {A B} (f : A -> B) (m : array2 A) : nrows (map2 f m) = nrows m.
Proof. unfold nrows, map2. apply length_map. Qed.

Lemma ncols_map2 {A B} (f : A -> B) (m : array2 A) : ncols (map2 f m) = ncols m.
Proof. unfold ncols, map2. destruct m; simpl; [reflexivity|apply length_map]. Qed.


Lemma rect_nrows {A} h w (m : array2 A) : rect h w m -> nrows m = h.
Proof.
  unfold rect, nrows. intro H.
  rewrite <- (length_map (@length A) m), H. apply repeat_length.
Qed.

Lemma rect_ncols {A} h w (m : array2 A) :
  rect h w m -> ncols m = match h with 0 => 0 | S _ => w end.
Proof.
  unfold rect, ncols. intro H. destruct m as [|r m]; destruct h; simpl in *;
    try discriminate; try reflexivity. injection H; auto.
Qed.

Lemma stretch_id {A} (l : list A) : stretch (length l) l = l.
Proof. unfold stretch. rewrite Nat.eqb_refl. reflexivity. Qed.

Lemma rect_broadcast_id {A} h w (m : array2 A) :
  rect h w m -> broadcast_to (nrows m) (ncols m) m = m.
Proof.
  intro R. unfold broadcast_to. unfold nrows at 1. rewrite stretch_id.
  rewrite (rect_ncols R). unfold rect in R.
  destruct h as [|h]; [destruct m; [reflexivity|discriminate]|].
  assert (F : forall r, In r m -> length r = w).
  { intros r Hr. apply (in_map (@length A)) in Hr. rewrite R in Hr.
    apply repeat_spec in Hr. exact Hr. }
  clear R. induction m as [|r m IH]; [reflexivity|]. simpl. f_equal.
  - rewrite <- (F r (or_introl eq_refl)). apply stretch_id.
  - apply IH. intros; apply F; right; assumption.
Qed.

Lemma bdim_refl n : bdim n n = Some n.
Proof. unfold bdim. rewrite Nat.eqb_refl. reflexivity. Qed.

Lemma binop_rect {A B C} (f : A -> B -> C) h w (x : array2 A) (y : array2 B) :
  rect h w x -> rect h w y ->
  binop f x y = Ok (zip_with (zip_with f) x y).
Proof.
  intros Rx Ry. unfold binop.
  assert (En : nrows y = nrows x) by (rewrite (rect_nrows Rx), (rect_nrows Ry); reflexivity).
  assert (Ec : ncols y = ncols x) by (rewrite (rect_ncols Rx), (rect_ncols Ry); reflexivity).
  rewrite En, Ec, !bdim_refl.
  rewrite (rect_broadcast_id Rx).
  rewrite <- En, <- Ec, (rect_broadcast_id Ry). reflexivity.
Qed.

Lemma zip_with_lengths {A B C} (f : A -> B -> C) (x : array2 A) (y : array2 B) :
  map (@length A) x = map (@length B) y ->
  map (@length C) (zip_with (zip_with f) x y) = map (@length A) x.
Proof.
  revert y. induction x as [|r x IH]; intros [|s y] H; simpl in *; try discriminate; auto.
  injection H as Hr Ht. f_equal; [|auto].
  clear - Hr. revert s Hr. induction r as [|a r IH]; intros [|b s] H; simpl in *;
    try discriminate; auto.
Qed.

Lemma upd_lengths {A} (m : array2 A) i (r : list A) :
  (forall r0, nth_error m i = Some r0 -> length r = length r0) ->
  map (@length A) (upd m i r) = map (@length A) m.
Proof.
  revert i. induction m as [|a m IH]; intros [|i] H; simpl in *; auto.
  - f_equal. apply H. reflexivity.
  - f_equal. apply IH. exact H.
Qed.

Lemma set_lengths {A} (m : array2 A) i j v :
  map (@length A) (set m i j v) = map (@length A) m.
Proof.
  unfold set. destruct (nth_error m i) as [r|] eqn:E; [|reflexivity].
  apply upd_lengths. intros r0 H. rewrite E in H. injection H as <-.
  apply upd_length.
Qed.

Lemma flood_lengths fuel img : forall lab l work,
  map (@length nat) (flood fuel img lab l work) = map (@length nat) lab.
Proof.
  induction fuel as [|fuel IH]; intros lab l work; simpl; [reflexivity|].
  destruct work as [|[i j] rest]; [reflexivity|].
  destruct (get false img i j && Nat.eqb (get 0 lab i j) 0).
  - rewrite IH. apply set_lengths.
  - apply IH.
Qed.

Lemma full_like_lengths {A B} (a : array2 A) (v : B) :
  map (@length B) (full_like a v) = map (@length A) a.
Proof.
  unfold full_like. rewrite map_map. apply map_ext. intro r. apply repeat_length.
Qed.

Lemma label_image_lengths img :
  map (@length nat) (snd (label_image img)) = map (@length bool) img.
Proof.
  unfold label_image.
  assert (G : forall ps st,
    map (@length nat) (snd (fold_left (label_step img) ps st))
    = map (@length nat) (snd st)).
  { induction ps as [|p ps IH]; intro st; simpl; [reflexivity|].
    rewrite IH. unfold label_step. destruct st as [n lab].
    destruct (get false img (fst p) (snd p) && Nat.eqb (get 0 lab (fst p) (snd p)) 0);
      [|reflexivity].
    simpl. apply flood_lengths. }
  rewrite G. simpl. apply full_like_lengths.
Qed.

Lemma ccws_spec img n lab stats :
  connectedComponentsWithStats img = (n, lab, stats) ->
  map (@length nat) lab = map (@length Z) img
  /\ forall k, k < n -> cc_area (nth k stats (mkStat 0 0 0 0 0)) = area lab k.
Proof.
  unfold connectedComponentsWithStats.
  pose proof (label_image_lengths (map2 (fun v => negb (Z.eqb v 0)) img)) as L.
  destruct (label_image _) as [c l]. intro H. injection H as <- <- <-.
  simpl in L. rewrite map2_lengths in L. split; [exact L|].
  intros k Hk.
  change (stat_of l 0 :: map (stat_of l) (seq 1 c))
    with (map (stat_of l) (seq 0 (S c))).
  rewrite (nth_indep _ _ (stat_of l 0)) by (rewrite length_map, length_seq; exact Hk).
  change (stat_of l 0) with (stat_of l (0 + 0)).
  rewrite (map_nth (stat_of l)). rewrite seq_nth by exact Hk. reflexivity.
Qed.

(** ** Values under a mask *)





Lemma fold_Qmax_In (t : list Q) : forall a, In (fold_left Qmax t a) (a :: t).
Proof.
  induction t as [|b t IH]; intro a; simpl; [left; reflexivity|].
  destruct (IH (Qmax a b)) as [H|H]; [|right; right; exact H].
  rewrite <- H. unfold Qmax. destruct (Qle_bool a b); auto.
Qed.

(** ** The fuel of the flood fill is enough *)

Lemma In_combine_seq {A} (m : list A) : forall k i r,
  nth_error m i = Some r -> In (k + i, r) (combine (seq k (length m)) m).
Proof.
  induction m as [|a m IH]; intros k [|i] r H; simpl in *; try discriminate.
  - injection H as <-. left. f_equal. lia.
  - right. replace (k + S i) with (S k + i) by lia. apply IH. exact H.
Qed.

Lemma In_coords {A} (m : array2 A) i j r :
  nth_error m i = Some r -> j < length r -> In (i, j) (coords m).
Proof.
  intros H Hj. unfold coords. apply in_concat.
  exists (map (fun j => (i, j)) (seq 0 (length r))). split.
  - apply in_map_iff. exists (i, r). split; [reflexivity|].
    apply (In_combine_seq m 0 i H).
  - apply in_map_iff. exists j. split; [reflexivity|]. apply in_seq. lia.
Qed.

Lemma length_coords {A} (m : array2 A) : length (coords m) = npixels m.
Proof.
  unfold coords, npixels.
  assert (G : forall k,
    length (concat (map (fun ir : nat * list A =>
                           map (fun j => (fst ir, j)) (seq 0 (length (snd ir))))
                        (combine (seq k (length m)) m)))
    = length (concat m)).
  { induction m as [|r m IH]; intro k; simpl; [reflexivity|].
    rewrite !length_app, length_map, length_seq, IH. reflexivity. }
  apply G.
Qed.

Lemma get_in_range {A} (d v : A) (m : array2 A) i j :
  get d m i j = v -> v <> d ->
  exists r, nth_error m i = Some r /\ j < length r.
Proof.
  unfold get. intros H Hv.
  destruct (nth_error m i) as [r|] eqn:E.
  - exists r. split; [reflexivity|].
    rewrite (nth_error_nth _ _ _ E) in H.
    destruct (Nat.lt_ge_cases j (length r)) as [L|L]; [exact L|].
    rewrite nth_overflow in H by exact L. congruence.
  - apply nth_error_None in E. rewrite (nth_overflow m) in H by exact E.
    destruct j; simpl in H; congruence.
Qed.

Lemma nth_upd {A} (d : A) (l : list A) i j v :
  nth j (upd l i v) d = if Nat.eqb j i && (i <? length l) then v else nth j l d.
Proof.
  revert i j. induction l as [|a l IH]; intros [|i] [|j]; simpl; auto.
  rewrite andb_false_r. reflexivity.
Qed.

Lemma get_set (m : array2 nat) i j v i' j' :
  get 0 (set m i j v) i' j'
  = if Nat.eqb i' i && Nat.eqb j' j && (j <? length (nth i m [])) && (i <? length m)
    then v else get 0 m i' j'.
Proof.
  unfold get, set. destruct (nth_error m i) as [r|] eqn:E.
  - assert (Hi : i < length m) by (apply nth_error_Some; congruence).
    rewrite (nth_error_nth _ _ _ E).
    rewrite (nth_upd [] m i i' (upd r j v)).
    destruct (Nat.eqb i' i) eqn:Ei; simpl.
    + apply Nat.eqb_eq in Ei. subst i'.
      apply Nat.ltb_lt in Hi. rewrite Hi. simpl.
      rewrite (nth_error_nth _ _ _ E), nth_upd, andb_true_r. reflexivity.
    + reflexivity.
  - apply nth_error_None in E. apply Nat.ltb_ge in E. rewrite E, andb_false_r.
    reflexivity.
Qed.

Lemma filter_length_le {A} (f g : A -> bool) (l : list A) :
  (forall x, g x = true -> f x = true) ->
  length (filter g l) <= length (filter f l).
Proof.
  intro H. induction l as [|a l IH]; simpl; [lia|].
  destruct (g a) eqn:G.
  - rewrite (H a G). simpl. lia.
  - destruct (f a); simpl; lia.
Qed.

Lemma filter_length_le_all {A} (g : A -> bool) (l : list A) :
  length (filter g l) <= length l.
Proof.
  induction l as [|a l IH]; simpl; [lia|]. destruct (g a); simpl; lia.
Qed.

Lemma filter_length_lt {A} (f g : A -> bool) (l : list A) p :
  (forall x, g x = true -> f x = true) ->
  In p l -> f p = true -> g p = false ->
  length (filter g l) < length (filter f l).
Proof.
  intros H. induction l as [|a l IH]; intros Hin Fp Gp; simpl; [destruct Hin|].
  destruct Hin as [->|Hin].
  - rewrite Fp, Gp. simpl.
    pose proof (filter_length_le f g l H). lia.
  - specialize (IH Hin Fp Gp). destruct (g a) eqn:G.
    + rewrite (H a G). simpl. lia.
    + destruct (f a); simpl; lia.
Qed.

Lemma unlabelled_set img lab i j l :
  l <> 0 -> map (@length nat) lab = map (@length bool) img ->
  get false img i j = true -> get 0 lab i j = 0 ->
  unlabelled img (set lab i j l) < unlabelled img lab.
Proof.
  intros Hl L Hi Hz. unfold unlabelled.
  destruct (@get_in_range bool false true img i j Hi) as (r & Er & Hj); [discriminate|].
  assert (Hr : j < length (nth i lab []) /\ i < length lab).
  { assert (Hn : nth i (map (@length nat) lab) 0 = length r).
    { rewrite L. apply nth_error_nth. rewrite nth_error_map, Er. reflexivity. }
    assert (Hlen : i < length lab).
    { rewrite <- (length_map (@length nat) lab), L, length_map.
      apply nth_error_Some. congruence. }
    split; [|exact Hlen].
    change 0 with (length (@nil nat)) in Hn. rewrite map_nth in Hn. lia. }
  destruct Hr as [Hr1 Hr2].
  apply filter_length_lt with (p := (i, j)).
  - intros [i' j'] H. simpl in *. apply andb_true_iff in H. destruct H as [H1 H2].
    rewrite H1. simpl. rewrite get_set in H2.
    destruct (_ && _ && _ && _); [|exact H2].
    apply Nat.eqb_eq in H2. contradiction.
  - eapply In_coords; eauto.
  - simpl. rewrite Hi, Hz. reflexivity.
  - simpl. rewrite Hi, get_set, !Nat.eqb_refl. simpl.
    apply Nat.ltb_lt in Hr1, Hr2. rewrite Hr1, Hr2. simpl.
    apply Nat.eqb_neq. exact Hl.
Qed.

(** Once the fuel covers five steps per unlabelled foreground pixel and
    one per pending position, more fuel changes nothing: the fill has
    emptied its work list. *)
Lemma flood_fuel_enough img l : l <> 0 -> forall fuel lab work extra,
  map (@length nat) lab = map (@length bool) img ->
  5 * unlabelled img lab + length work <= fuel ->
  flood (fuel + extra) img lab l work = flood fuel img lab l work.
Proof.
  intros Hl. induction fuel as [|fuel IH]; intros lab work extra L B.
  - destruct work; [|simpl in B; lia]. destruct extra; reflexivity.
  - simpl. destruct work as [|[i j] rest]; [reflexivity|].
    destruct (get false img i j && Nat.eqb (get 0 lab i j) 0) eqn:E.
    + apply andb_true_iff in E. destruct E as [E1 E2]. apply Nat.eqb_eq in E2.
      pose proof (unlabelled_set img lab i j Hl L E1 E2) as U.
      apply IH; [rewrite set_lengths; exact L|].
      simpl in B |- *. lia.
    + apply IH; [exact L|]. simpl in B. lia.
Qed.

(** The fuel that [label_step] gives to the fill of one component is enough. *)
Lemma label_step_fuel_enough img lab l p extra :
  l <> 0 -> map (@length nat) lab = map (@length bool) img ->
  flood (5 * npixels img + 1 + extra) img lab l [p]
  = flood (5 * npixels img + 1) img lab l [p].
Proof.
  intros Hl L. apply flood_fuel_enough; auto.
  assert (unlabelled img lab <= npixels img).
  { unfold unlabelled. rewrite <- length_coords. apply filter_length_le_all. }
  simpl. lia.
Qed.

(** ** Components below the text threshold *)

Lemma rect_map2 {A B} (f : A -> B) h w (m : array2 A) : rect h w m -> rect h w (map2 f m).
Proof. unfold rect. rewrite map2_lengths. auto. Qed.



Lemma rect_nonempty {A} h w (m : array2 A) :
  0 < h -> 0 < w -> rect h w m -> is_empty m = false.
Proof.
  intros Hh Hw R. unfold is_empty.
  rewrite (rect_nrows R), (rect_ncols R).
  destruct h; [lia|]. destruct w; [lia|]. reflexivity.
Qed.



(** A map with a dimension of size zero is not binarized: [cv2.threshold]
    returns [None] for it and the sum of the two binarized maps raises
    TypeError, whatever the other map. *)
Lemma empty_map_raises ops tm lm tt lt low poly :
  is_empty tm = true \/ is_empty lm = true ->
  getDetBoxes ops tm lm tt lt low poly = Raise TypeError.
Proof.
  intro H. unfold getDetBoxes, getDetBoxes_core.
  destruct H as [H|H].
  - rewrite (@threshold_None _ _ _ H). reflexivity.
  - rewrite (@threshold_None _ _ _ H).
    destruct (threshold tm low 1%Q); reflexivity.
Qed.

(** C3 (as amended). There is no shape validation of its own; when the two
    maps are non-empty (no dimension of size zero) and their shapes cannot be
    broadcast together (they differ in a dimension where neither is 1) the
    element-wise sum of the binarized maps raises numpy's ValueError before
    any component is looked at. *)
Theorem unbroadcastable_shapes_raise ops tm lm tt lt low poly :
  is_empty tm = false -> is_empty lm = false ->
  bdim (nrows tm) (nrows lm) = None \/ bdim (ncols tm) (ncols lm) = None ->
  getDetBoxes ops tm lm tt lt low poly = Raise ValueError.
Proof.
  intros Et El H. unfold getDetBoxes, getDetBoxes_core.
  rewrite (@threshold_Some _ _ _ Et), (@threshold_Some _ _ _ El).
  unfold binop. rewrite !nrows_map2, !ncols_map2.
  destruct H as [-> | ->]; [reflexivity|].
  destruct (bdim (nrows tm) (nrows lm)); reflexivity.
Qed.

(** ** Character counts *)

(** An iteration that keeps its label appends, as character count, one more
    than the number of connected components of the cleaned mask: the count
    returned by [connectedComponentsWithStats] includes the background
    label, and the mean is taken over all labels, background included. *)
Lemma component_counts_background ops tm lm tt lt low ts ls labels stats k st st' :
  threshold tm low 1%Q = Some ts -> threshold lm lt 1%Q = Some ls ->
  component ops tm tt ts ls labels stats k st = Ok st' ->
  st' = st \/
  exists seg box,
    cleaned_segmap tm lm lt low labels k = Ok seg
    /\ st' = mkCore (det st ++ [box]) (mapper st ++ [k])
               (num_characters st ++ [S (count_components seg)])
               (avg_character_sizes st
                ++ [mean_nat (map cc_area (snd (connectedComponentsWithStats seg)))]).
Proof.
  unfold component. intros Ts Ls H.
  res_step H; [left; congruence|].
  res_step H. res_step H.
  res_step H; [left; congruence|].
  res_step H. res_step H. res_step H.
  right. exists a3.
  assert (C : cleaned_segmap tm lm lt low labels k = Ok a3).
  { unfold cleaned_segmap. rewrite Ts, Ls, E3, bind_Ok, E4, bind_Ok. exact E5. }
  unfold count_components.
  unfold connectedComponentsWithStats in *.
  destruct (label_image _) as [n lab]. simpl fst. simpl snd.
  res_step H. injection H as <-. eauto.
Qed.

(** C2 (code evaluated at the failing input). Scenario A: one isolated
    30 x 14 rectangle of score 1, zero link map.  One box is returned; its
    cleaned mask has one connected component, of area 420, yet
    num_characters is [2] and average_character_size is [800 / 2]: the
    background label is counted as a character and its area enters the
    mean. *)
Theorem scenarioA_counts_background :
  exists r seg,
    getDetBoxes Reference.ops Inputs.scenarioA_text Inputs.scenarioA_link
                (7 # 10) (4 # 10) (4 # 10) false = Ok r
    /\ length (r_boxes r) = 1
    /\ cleaned_segmap Inputs.scenarioA_text Inputs.scenarioA_link (4 # 10) (4 # 10)
                      (r_labels r) 1 = Ok seg
    /\ count_components seg = 1
    /\ map cc_area (snd (connectedComponentsWithStats seg)) = [380; 420]
    /\ r_num_characters r = [2]
    /\ r_average_character_size r = [(800 # 2)%Q]
    /\ r_word_id r = [(-1)%Z].
Proof.
  eexists. eexists.
  split; [vm_compute; reflexivity|].
  split; [reflexivity|].
  split; [vm_compute; reflexivity|].
  repeat split; vm_compute; reflexivity.
Qed.

(** ** Runs on concrete inputs *)

Lemma two_lines_run :
  getDetBoxes Reference.ops Examples.two_lines_text Examples.two_lines_link
              (7 # 10) (4 # 10) (4 # 10) true = Ok Examples.two_lines_result.
Proof. vm_compute. reflexivity. Qed.

Lemma getDetBoxes_lengths_witness :
  getDetBoxes Reference.ops Examples.two_lines_text Examples.two_lines_link
              (7 # 10) (4 # 10) (4 # 10) true = Ok Examples.two_lines_result
  /\ length (r_boxes Examples.two_lines_result) = length (r_mapper Examples.two_lines_result)
  /\ length (r_mapper Examples.two_lines_result)
     = length (r_num_characters Examples.two_lines_result)
  /\ length (r_num_characters Examples.two_lines_result)
     = length (r_average_character_size Examples.two_lines_result)
  /\ length (r_average_character_size Examples.two_lines_result)
     = length (r_word_id Examples.two_lines_result)
  /\ length (r_word_id Examples.two_lines_result)
     = length (r_polys Examples.two_lines_result).
Proof.
  split; [vm_compute; reflexivity|].
  apply (@getDetBoxes_lengths Reference.ops Examples.two_lines_text Examples.two_lines_link
           (7 # 10) (4 # 10) (4 # 10) true Examples.two_lines_result).
  vm_compute. reflexivity.
Defined.

Lemma getDetBoxes_word_id_range_witness :
  getDetBoxes Reference.ops Examples.two_lines_text Examples.two_lines_link
              (7 # 10) (4 # 10) (4 # 10) true = Ok Examples.two_lines_result
  /\ nth_error (r_word_id Examples.two_lines_result) 0 = Some 1%Z
  /\ (1%Z = (-1)%Z
      \/ ((0 <= 1 < Z.of_nat (length (r_boxes Examples.two_lines_result)))%Z
          /\ 1%Z <> Z.of_nat 0)).
Proof.
  split; [vm_compute; reflexivity|].
  split; [reflexivity|].
  apply (@getDetBoxes_word_id_range Reference.ops Examples.two_lines_text
           Examples.two_lines_link (7 # 10) (4 # 10) (4 # 10) true
           Examples.two_lines_result).
  - vm_compute. reflexivity.
  - reflexivity.
Defined.

Lemma small_box_unfit_witness :
  (d Reference.ops (v0 Examples.tiny_box) (v1 Examples.tiny_box) < 9)%Q
  /\ getPoly_from Reference.ops Examples.stripe_labels [1] 0 [Examples.tiny_box]
     = Ok [None].
Proof.
  assert (H : (d Reference.ops (v0 Examples.tiny_box) (v1 Examples.tiny_box) < 9)%Q)
    by (vm_compute; reflexivity).
  split; [exact H|].
  exact (proj2 (small_box_unfit Reference.ops Examples.stripe_labels [1] 0
                  Examples.tiny_box) (or_introl H)).
Defined.

(** C3 (the claim as stated fails). An 8 x 10 text map with a 1 x 1 link
    map: the shapes differ, the sum broadcasts, and the call returns its
    record with one box. *)
Lemma broadcast_linkmap_accepted :
  (nrows Examples.blob_text, ncols Examples.blob_text)
  <> (nrows [[0%Q]], ncols [[0%Q]])
  /\ exists r,
       getDetBoxes Reference.ops Examples.blob_text [[0%Q]]
                   (7 # 10) (4 # 10) (4 # 10) false = Ok r
       /\ length (r_boxes r) = 1.
Proof.
  split; [vm_compute; discriminate|].
  eexists. split; [vm_compute; reflexivity|reflexivity].
Qed.

Lemma unbroadcastable_shapes_raise_witness :
  is_empty Examples.blob_text = false
  /\ is_empty (Inputs.zero_map 8 7) = false
  /\ (bdim (nrows Examples.blob_text) (nrows (Inputs.zero_map 8 7)) = None
      \/ bdim (ncols Examples.blob_text) (ncols (Inputs.zero_map 8 7)) = None)
  /\ getDetBoxes Reference.ops Examples.blob_text (Inputs.zero_map 8 7)
                 (7 # 10) (4 # 10) (4 # 10) true = Raise ValueError.
Proof.
  assert (Et : is_empty Examples.blob_text = false) by reflexivity.
  assert (El : is_empty (Inputs.zero_map 8 7) = false) by reflexivity.
  assert (H : bdim (nrows Examples.blob_text) (nrows (Inputs.zero_map 8 7)) = None
              \/ bdim (ncols Examples.blob_text) (ncols (Inputs.zero_map 8 7)) = None)
    by (right; vm_compute; reflexivity).
  split; [exact Et|]. split; [exact El|]. split; [exact H|].
  exact (@unbroadcastable_shapes_raise Reference.ops Examples.blob_text
           (Inputs.zero_map 8 7) (7 # 10) (4 # 10) (4 # 10) true Et El H).
Defined.



(** * Further properties *)

Import StateDict Spec2.

(** ** copyStateDict *)

Lemma split_dot_nonempty s : split_dot s <> [].
Proof.
  destruct s as [|c s]; simpl; [discriminate|].
  destruct (Ascii.eqb c dot); [discriminate|].
  destruct (split_dot s); discriminate.
Qed.

Lemma join_split s : join_dot (split_dot s) = s.
Proof.
  induction s as [|c s IH]; [reflexivity|].
  simpl split_dot. destruct (Ascii.eqb c dot) eqn:E.
  - apply Ascii.eqb_eq in E. subst c.
    pose proof (split_dot_nonempty s) as N.
    simpl. destruct (split_dot s) as [|h t]; [contradiction|].
    simpl in IH |- *. rewrite IH. reflexivity.
  - pose proof (split_dot_nonempty s) as N.
    destruct (split_dot s) as [|h t]; [contradiction|].
    simpl in IH |- *. destruct t as [|h' t]; simpl in *; rewrite IH; reflexivity.
Qed.

Lemma rename_0 k : rename 0 k = k.
Proof. unfold rename. simpl. apply join_split. Qed.

Lemma split_dot_no_dot p : no_dot p = true -> split_dot p = [p].
Proof.
  induction p as [|c p IH]; simpl; [reflexivity|].
  intro H. apply andb_true_iff in H. destruct H as [H1 H2].
  apply negb_true_iff in H1. rewrite H1, (IH H2). reflexivity.
Qed.

Lemma split_dot_prefix p rest :
  no_dot p = true ->
  split_dot (String.append p (String.String dot rest)) = p :: split_dot rest.
Proof.
  induction p as [|c p IH]; simpl; intro H.
  - reflexivity.
  - apply andb_true_iff in H. destruct H as [H1 H2].
    apply negb_true_iff in H1. rewrite H1, (IH H2). reflexivity.
Qed.

Lemma od_get_set {V} (d : list (String.string * V)) k v k' :
  od_get (od_set d k v) k' = if String.eqb k k' then Some v else od_get d k'.
Proof.
  induction d as [|[a b] d IH]; simpl.
  - destruct (String.eqb k k'); reflexivity.
  - destruct (String.eqb a k) eqn:E; simpl.
    + apply String.eqb_eq in E. subst a.
      destruct (String.eqb k k'); reflexivity.
    + rewrite IH. destruct (String.eqb k k') eqn:E'; [|reflexivity].
      apply String.eqb_eq in E'. subst k'. rewrite E. reflexivity.
Qed.

Lemma od_set_keys {V} (d : list (String.string * V)) k v :
  map fst (od_set d k v)
  = if existsb (String.eqb k) (map fst d) then map fst d else map fst d ++ [k].
Proof.
  induction d as [|[a b] d IH]; simpl; [reflexivity|].
  rewrite (String.eqb_sym k a).
  destruct (String.eqb a k) eqn:E; simpl; [reflexivity|].
  rewrite IH. destruct (existsb (String.eqb k) (map fst d)); reflexivity.
Qed.

Lemma od_set_NoDup {V} (d : list (String.string * V)) k v :
  NoDup (map fst d) -> NoDup (map fst (od_set d k v)).
Proof.
  intro N. rewrite od_set_keys.
  destruct (existsb (String.eqb k) (map fst d)) eqn:E; [exact N|].
  apply NoDup_app; [exact N|constructor; [intros []|constructor]|].
  intros x Hx [Ek|[]]. subst x.
  assert (existsb (String.eqb k) (map fst d) = true); [|congruence].
  apply existsb_exists. exists k. split; [exact Hx|apply String.eqb_refl].
Qed.

Lemma od_set_fresh {V} (d : list (String.string * V)) k v :
  ~ In k (map fst d) -> od_set d k v = d ++ [(k, v)].
Proof.
  induction d as [|[a b] d IH]; simpl; intro H; [reflexivity|].
  destruct (String.eqb a k) eqn:E.
  - apply String.eqb_eq in E. tauto.
  - rewrite IH by tauto. reflexivity.
Qed.

Lemma fold_od_set_fresh {V} (f : String.string -> String.string)
    (items : list (String.string * V)) : forall acc,
  NoDup (map fst acc ++ map (fun kv => f (fst kv)) items) ->
  fold_left (fun nd kv => od_set nd (f (fst kv)) (snd kv)) items acc
  = acc ++ map (fun kv => (f (fst kv), snd kv)) items.
Proof.
  induction items as [|[k v] items IH]; intros acc N; simpl.
  - rewrite app_nil_r. reflexivity.
  - simpl in N. rewrite od_set_fresh.
    + rewrite IH.
      * rewrite <- app_assoc. reflexivity.
      * rewrite map_app. simpl. rewrite <- app_assoc. exact N.
    + apply NoDup_remove_2 in N. intro H. apply N. apply in_or_app. left. exact H.
Qed.

Lemma fold_od_set_get {V} (f : String.string -> String.string)
    (items : list (String.string * V)) name : forall acc,
  od_get (fold_left (fun nd kv => od_set nd (f (fst kv)) (snd kv)) items acc) name
  = fold_left (fun o kv => if String.eqb (f (fst kv)) name then Some (snd kv) else o)
              items (od_get acc name).
Proof.
  induction items as [|[k v] items IH]; intro acc; simpl; [reflexivity|].
  rewrite IH, od_get_set. reflexivity.
Qed.

Lemma fold_od_set_NoDup {V} (f : String.string -> String.string)
    (items : list (String.string * V)) : forall acc,
  NoDup (map fst acc) ->
  NoDup (map fst (fold_left (fun nd kv => od_set nd (f (fst kv)) (snd kv)) items acc)).
Proof.
  induction items as [|[k v] items IH]; intros acc N; simpl; [exact N|].
  apply IH, od_set_NoDup, N.
Qed.

(** X1. The dict that [copyStateDict] returns has unique keys, and looking a
    name up in it gives the value of the last input item renamed to that
    name (none if no item is): where two keys are renamed alike the later
    value wins. *)
Theorem copyStateDict_lookup {V} (d nd : list (String.string * V)) k0 v0 rest :
  d = (k0, v0) :: rest ->
  copyStateDict d = Ok nd ->
  NoDup (map fst nd)
  /\ forall name,
       od_get nd name
       = last_value (if String.prefix "module" k0 then 1 else 0) d name.
Proof.
  intros -> H. unfold copyStateDict in H. injection H as <-. split.
  - apply (fold_od_set_NoDup (rename (if String.prefix "module" k0 then 1 else 0))
             ((k0, v0) :: rest) []).
    apply NoDup_nil.
  - intro name. unfold last_value.
    exact (fold_od_set_get (rename (if String.prefix "module" k0 then 1 else 0))
             ((k0, v0) :: rest) name []).
Qed.

Lemma copyStateDict_lookup_witness :
  parallel_dict = ("module.conv1.weight"%string, 1) :: tl parallel_dict
  /\ copyStateDict parallel_dict
     = Ok [("conv1.weight"%string, 1); ("conv1.bias"%string, 2); ("fc.weight"%string, 3)]
  /\ od_get [("conv1.weight"%string, 1); ("conv1.bias"%string, 2); ("fc.weight"%string, 3)]
            "conv1.bias"%string
     = last_value (if String.prefix "module" "module.conv1.weight" then 1 else 0)
                  parallel_dict "conv1.bias"%string.
Proof.
  assert (E : parallel_dict = ("module.conv1.weight"%string, 1) :: tl parallel_dict)
    by reflexivity.
  assert (R : copyStateDict parallel_dict
     = Ok [("conv1.weight"%string, 1); ("conv1.bias"%string, 2); ("fc.weight"%string, 3)])
    by (vm_compute; reflexivity).
  split; [exact E|]. split; [exact R|].
  exact (proj2 (copyStateDict_lookup E R) "conv1.bias"%string).
Defined.

(** X2. When the first key does not start with "module", [copyStateDict]
    returns the items of the dict unchanged and in the same order (a dict
    has unique keys; splitting a key at its dots and joining the pieces gives
    the key back). *)
Theorem copyStateDict_plain {V} (d : list (String.string * V)) k0 v0 rest :
  d = (k0, v0) :: rest ->
  NoDup (map fst d) ->
  String.prefix "module" k0 = false ->
  copyStateDict d = Ok d.
Proof.
  intros -> N P. unfold copyStateDict. rewrite P. f_equal.
  rewrite (fold_od_set_fresh (rename 0) ((k0, v0) :: rest) []).
  - rewrite app_nil_l.
    etransitivity; [apply map_ext with (g := fun kv => kv)|apply map_id].
    intros [k v]. simpl. rewrite rename_0. reflexivity.
  - rewrite app_nil_l.
    rewrite (map_ext (fun kv : String.string * V => rename 0 (fst kv)) fst); [exact N|].
    intros [k v]. simpl. apply rename_0.
Qed.

Lemma copyStateDict_plain_witness :
  plain_dict = ("conv1.weight"%string, 1) :: tl plain_dict
  /\ NoDup (map fst plain_dict)
  /\ String.prefix "module" "conv1.weight" = false
  /\ copyStateDict plain_dict = Ok plain_dict.
Proof.
  assert (E : plain_dict = ("conv1.weight"%string, 1) :: tl plain_dict) by reflexivity.
  assert (N : NoDup (map fst plain_dict)).
  { repeat constructor; simpl; intuition discriminate. }
  assert (P : String.prefix "module" "conv1.weight" = false) by reflexivity.
  repeat (split; [assumption|]).
  exact (copyStateDict_plain E N P).
Defined.

(** X3. When the first key starts with "module", every key loses its first
    dot-separated component, whatever that component is: a key [p.rest]
    with no dot in [p] becomes [rest], and a key without any dot becomes the
    empty string.  When the renamed keys are pairwise different the result
    is the list of the renamed items in order. *)
Theorem copyStateDict_strips_first_component {V} (d : list (String.string * V)) k0 v0 rest :
  d = (k0, v0) :: rest ->
  String.prefix "module" k0 = true ->
  NoDup (map (fun kv => rename 1 (fst kv)) d) ->
  copyStateDict d = Ok (map (fun kv => (rename 1 (fst kv), snd kv)) d)
  /\ (forall p r, no_dot p = true ->
        rename 1 (String.append p (String.String dot r)) = r)
  /\ (forall p, no_dot p = true -> rename 1 p = String.EmptyString).
Proof.
  intros -> P N. split; [|split].
  - unfold copyStateDict. rewrite P. f_equal.
    exact (fold_od_set_fresh (rename 1) ((k0, v0) :: rest) [] N).
  - intros p r H. unfold rename. rewrite split_dot_prefix by exact H.
    simpl. apply join_split.
  - intros p H. unfold rename. rewrite split_dot_no_dot by exact H. reflexivity.
Qed.

Lemma copyStateDict_strips_first_component_witness :
  parallel_dict = ("module.conv1.weight"%string, 1) :: tl parallel_dict
  /\ String.prefix "module" "module.conv1.weight" = true
  /\ NoDup (map (fun kv => rename 1 (fst kv)) parallel_dict)
  /\ copyStateDict parallel_dict
     = Ok (map (fun kv => (rename 1 (fst kv), snd kv)) parallel_dict).
Proof.
  assert (E : parallel_dict = ("module.conv1.weight"%string, 1) :: tl parallel_dict)
    by reflexivity.
  assert (P : String.prefix "module" "module.conv1.weight" = true) by reflexivity.
  assert (N : NoDup (map (fun kv => rename 1 (fst kv)) parallel_dict)).
  { vm_compute. repeat constructor; simpl; intuition discriminate. }
  repeat (split; [assumption|]).
  exact (proj1 (copyStateDict_strips_first_component E P N)).
Defined.

(** ** warpCoord and the inverse transform *)

Lemma inv3_det_nonzero m minv : inv3 m = Ok minv -> ~ (det3 m == 0)%Q.
Proof.
  unfold inv3, Qeqb. destruct (Qeq_bool (det3 m) 0) eqn:E; [discriminate|].
  intros _ H. apply Qeq_bool_iff in H. congruence.
Qed.

(** X4. Un-warping undoes warping: when [np.linalg.inv(M)] succeeds and the
    projective divisor of a point under [M] is not zero, [warpCoord] with
    the inverse sends the image of the point under [M] back to the point. *)
Theorem warpCoord_inverse M Minv x y :
  inv3 M = Ok Minv ->
  ~ (m20 M * x + m21 M * y + m22 M == 0)%Q ->
  (px (warpCoord Minv (warpCoord M (x, y))) == x)%Q
  /\ (py (warpCoord Minv (warpCoord M (x, y))) == y)%Q.
Proof.
  intros H W. pose proof (inv3_det_nonzero H) as D.
  unfold inv3 in H. destruct (Qeqb (det3 M) 0); [discriminate|].
  injection H as <-.
  destruct M as [a b c d e f g h i].
  unfold warpCoord, px, py, det3 in *. simpl in *.
  assert (K : (((d * h - e * g) / (a * (e * i - f * h) - b * (d * i - f * g) + c * (d * h - e * g))
               * ((a * x + b * y + c) / (g * x + h * y + i))
               + (b * g - a * h) / (a * (e * i - f * h) - b * (d * i - f * g) + c * (d * h - e * g))
                 * ((d * x + e * y + f) / (g * x + h * y + i))
               + (a * e - b * d) / (a * (e * i - f * h) - b * (d * i - f * g) + c * (d * h - e * g)))
              == 1 / (g * x + h * y + i))%Q).
  { field. split; assumption. }
  assert (K0 : ~ (1 / (g * x + h * y + i) == 0)%Q).
  { intro Z. apply W. 
    assert (T : ((g * x + h * y + i) == (g * x + h * y + i) * (g * x + h * y + i) * (1 / (g * x + h * y + i)))%Q)
      by (field; assumption).
    rewrite T, Z. ring. }
  split; field; (repeat split; try assumption); rewrite K; exact K0.
Qed.

(** ** Vertex order of the boxes *)

Ltac qcmp H := first [apply Qltb_lt in H | apply Qltb_ge in H].

Lemma argmin4_spec a b c d :
  let n := argmin4 a b c d in
  n < 4 /\ forall i, (nth n [a; b; c; d] d <= nth i [a; b; c; d] d)%Q.
Proof.
  unfold argmin4.
  destruct (Qltb b a) eqn:E1; cbn [snd fst];
    destruct (Qltb c _) eqn:E2; cbn [snd fst];
    destruct (Qltb d _) eqn:E3; cbn [snd fst];
    qcmp E1; qcmp E2; qcmp E3;
    (split; [lia|]); intros [|[|[|[|i]]]]; simpl; try lra; destruct i; lra.
Qed.

Lemma vertex_rotate box n i :
  i < 4 -> vertex (rotate_box box n) i = vertex box ((n + i) mod 4).
Proof.
  intro H. destruct i as [|[|[|[|i]]]]; try lia; simpl;
    rewrite ?Nat.add_0_r; reflexivity.
Qed.

Lemma sort_box_cases ops box :
  (exists n, n < 4 /\ sort_box ops box = rotate_box box n)
  /\ ((forall i, (py (v0 (sort_box ops box)) <= py (vertex box i))%Q)
      \/ (forall i, (py (v1 (sort_box ops box)) <= py (vertex box i))%Q)).
Proof.
  unfold sort_box.
  pose proof (argmin4_spec (py (v0 box)) (py (v1 box)) (py (v2 box)) (py (v3 box)))
    as [Hn Hmin].
  set (aymin := argmin4 _ _ _ _) in *.
  assert (Hv : forall i, (py (vertex box aymin) <= py (vertex box i))%Q).
  { intro i. specialize (Hmin i).
    destruct aymin as [|[|[|[|a]]]]; try lia;
      destruct i as [|[|[|[|i]]]]; simpl in *; try exact Hmin;
      destruct i; exact Hmin. }
  destruct (Qltb _ _).
  - split; [exists aymin; auto|]. left. intro i.
    destruct aymin as [|[|[|[|a]]]]; try lia; simpl; apply (Hv i).
  - split; [exists ((aymin + 3) mod 4); split; [apply Nat.mod_upper_bound; lia|reflexivity]|].
    right. intro i.
    destruct aymin as [|[|[|[|a]]]]; try lia; simpl; apply (Hv i).
Qed.

(** [argmin4] returns the first index of the minimum: every earlier value
    is strictly larger. *)
Lemma argmin4_first a b c d :
  forall j, j < argmin4 a b c d ->
    (nth (argmin4 a b c d) [a; b; c; d] d < nth j [a; b; c; d] d)%Q.
Proof.
  unfold argmin4.
  destruct (Qltb b a) eqn:E1; cbn [snd fst];
    destruct (Qltb c _) eqn:E2; cbn [snd fst];
    destruct (Qltb d _) eqn:E3; cbn [snd fst];
    qcmp E1; qcmp E2; qcmp E3;
    intros [|[|[|j]]] Hj; simpl; try lia; lra.
Qed.

(** X5. [sort_box] returns the four vertices in the same cyclic order,
    started at another vertex.  With [a] the index of the topmost vertex of
    the box, the first one of minimal y ([np.argmin(box[:,1])]): when the
    edge from vertex [a] to the next vertex is longer than the edge after it,
    the result starts at vertex [a], which comes first; otherwise it starts
    at the vertex before [a], and vertex [a] comes second. *)
Theorem sort_box_rotates ops box :
  exists a,
    a < 4
    /\ (forall i, (py (vertex box a) <= py (vertex box i))%Q)
    /\ (forall j, j < a -> (py (vertex box a) < py (vertex box j))%Q)
    /\ ((Qltb (d ops (vertex box ((a + 2) mod 4)) (vertex box ((a + 1) mod 4)))
              (d ops (vertex box a) (vertex box ((a + 1) mod 4))) = true
         /\ sort_box ops box = rotate_box box a
         /\ v0 (sort_box ops box) = vertex box a)
        \/ (Qltb (d ops (vertex box ((a + 2) mod 4)) (vertex box ((a + 1) mod 4)))
                 (d ops (vertex box a) (vertex box ((a + 1) mod 4))) = false
            /\ sort_box ops box = rotate_box box ((a + 3) mod 4)
            /\ v1 (sort_box ops box) = vertex box a)).
Proof.
  unfold sort_box.
  pose proof (argmin4_spec (py (v0 box)) (py (v1 box)) (py (v2 box)) (py (v3 box)))
    as [Hn Hmin].
  pose proof (argmin4_first (py (v0 box)) (py (v1 box)) (py (v2 box)) (py (v3 box)))
    as Hfirst.
  set (aymin := argmin4 _ _ _ _) in *.
  exists aymin. split; [exact Hn|]. split; [|split].
  - intro i. specialize (Hmin i).
    destruct aymin as [|[|[|[|a]]]]; try lia;
      destruct i as [|[|[|[|i]]]]; simpl in *; try exact Hmin;
      destruct i; exact Hmin.
  - intros j Hj. specialize (Hfirst j Hj).
    destruct aymin as [|[|[|[|a]]]]; try lia;
      destruct j as [|[|[|j]]]; simpl in *; try lia; exact Hfirst.
  - destruct (Qltb _ _); [left|right]; (split; [reflexivity|]);
      (split; [reflexivity|]);
      destruct aymin as [|[|[|[|a]]]]; try lia; reflexivity.
Qed.

(** ** What the per-label loop keeps *)

Import Spec3.

Lemma component_kept ops tm tt ts ls labels stats k st st' :
  component ops tm tt ts ls labels stats k st = Ok st' ->
  st' = st \/
  (kept_ok tm tt labels stats k
   /\ exists b0 chars avg,
        st' = mkCore (det st ++ [sort_box ops b0]) (mapper st ++ [k])
                     (num_characters st ++ [chars]) (avg_character_sizes st ++ [avg])).
Proof.
  unfold component. intro H.
  res_step H; [left; congruence|].
  res_step H. res_step H.
  res_step H; [left; congruence|].
  res_step H. res_step H. res_step H.
  destruct (connectedComponentsWithStats a3) as [[wc wl] ws].
  res_step H. injection H as <-. right. split.
  - split; [apply Nat.ltb_ge; exact E|]. eauto.
  - eauto.
Qed.

Lemma sort_box_top_first ops b0 : top_first (sort_box ops b0).
Proof.
  destruct (sort_box_cases ops b0) as [(n & Hn & E) T].
  assert (V : forall i, exists j, vertex (sort_box ops b0) i = vertex b0 j).
  { intro i. rewrite E.
    destruct i as [|[|[|i]]]; simpl; eauto. }
  destruct T as [T|T]; [left|right]; intro i;
    destruct (V i) as [j ->]; apply T.
Qed.

(** The invariant of the loop over the labels [lo, lo + 1, ...]. *)
Lemma components_kept ops tm tt ts ls labels stats : forall len lo st st',
  components ops tm tt ts ls labels stats (seq lo len) st = Ok st' ->
  (StronglySorted Nat.lt (mapper st) /\ Forall (fun k => k < lo) (mapper st)
   /\ Forall (kept_ok tm tt labels stats) (mapper st)
   /\ Forall top_first (det st)) ->
  StronglySorted Nat.lt (mapper st')
  /\ Forall (fun k => k < lo + len) (mapper st')
  /\ Forall (kept_ok tm tt labels stats) (mapper st')
  /\ Forall top_first (det st').
Proof.
  induction len as [|len IH]; intros lo st st' H (S1 & B1 & K1 & T1); simpl in H.
  - injection H as <-. rewrite Nat.add_0_r. auto.
  - res_step H. apply IH in H.
    + replace (lo + S len) with (S lo + len) by lia. exact H.
    + apply component_kept in E.
      destruct E as [->|(K & b0 & c & av & ->)]; simpl.
      * repeat split; auto. eapply Forall_impl; [|exact B1]. intros; simpl in *; lia.
      * repeat split.
        -- clear - S1 B1. induction (mapper st) as [|m ms IHm]; simpl.
           ++ constructor; constructor.
           ++ inversion S1; inversion B1; subst. constructor; [auto|].
              apply Forall_app. split; [assumption|].
              constructor; [assumption|constructor].
        -- apply Forall_app. split; [|constructor; [lia|constructor]].
           eapply Forall_impl; [|exact B1]. intros; simpl in *; lia.
        -- apply Forall_app. split; [exact K1|constructor; [exact K|constructor]].
        -- apply Forall_app. split; [exact T1|constructor; [|constructor]].
           apply sort_box_top_first.
Qed.

Lemma select_row_positions {A} (d : A) (f : nat -> bool) (v : A) r lr :
  In v (select_row r (map f lr)) ->
  exists j, f (nth j lr 0) = true /\ nth j r d = v /\ j < length lr.
Proof.
  revert lr. induction r as [|a r IH]; intros [|b lr] H; simpl in *; try tauto.
  destruct (f b) eqn:E.
  - destruct H as [<-|H].
    + exists 0. repeat split; [exact E|lia].
    + destruct (IH _ H) as (j & H1 & H2 & H3). exists (S j). repeat split; auto; lia.
  - destruct (IH _ H) as (j & H1 & H2 & H3). exists (S j). repeat split; auto; lia.
Qed.

Lemma select_positions {A} (d : A) (f : nat -> bool) (v : A) a lab :
  In v (concat (zip_with select_row a (map2 f lab))) ->
  exists i j, f (get 0 lab i j) = true /\ get d a i j = v.
Proof.
  revert lab. induction a as [|r a IH]; intros [|lr lab] H; simpl in *; try tauto.
  apply in_app_or in H. destruct H as [H|H].
  - destruct (select_row_positions d f v r lr H) as (j & H1 & H2 & _).
    exists 0, j. split; assumption.
  - destruct (IH _ H) as (i & j & H1 & H2). exists (S i), j. split; assumption.
Qed.

Lemma getDetBoxes_core_inv ops tm lm tt lt low boxes labels mp nc acs wid :
  getDetBoxes_core ops tm lm tt lt low = Ok (boxes, labels, mp, nc, acs, wid) ->
  exists ts ls sum n stats st,
    threshold tm low 1%Q = Some ts /\ threshold lm lt 1%Q = Some ls
    /\ binop Qplus ts ls = Ok sum
    /\ connectedComponentsWithStats (map2 astype_uint8 (clip 0%Q 1%Q sum))
       = (n, labels, stats)
    /\ components ops tm tt ts ls labels stats (seq 1 (n - 1)) (mkCore [] [] [] [])
       = Ok st
    /\ boxes = det st /\ mp = mapper st.
Proof.
  intro H. apply getDetBoxes_core_thresholds in H.
  destruct H as (ts & ls & Ts & Ls & H). res_step H.
  destruct (connectedComponentsWithStats _) as [[n lab] stats] eqn:C.
  res_step H. injection H as <- <- <- <- <- <-.
  exists ts, ls, a, n, stats, a0. repeat split; auto.
Qed.

Lemma getDetBoxes_inv ops tm lm tt lt low poly r :
  getDetBoxes ops tm lm tt lt low poly = Ok r ->
  getDetBoxes_core ops tm lm tt lt low
  = Ok (r_boxes r, r_labels r, r_mapper r, r_num_characters r,
        r_average_character_size r, r_word_id r).
Proof.
  unfold getDetBoxes. intro H. res_step H.
  destruct a as [[[[[boxes labels] mp] nc] acs] wid].
  res_step H. injection H as <-. reflexivity.
Qed.

Lemma getDetBoxes_kept ops tm lm tt lt low poly r :
  getDetBoxes ops tm lm tt lt low poly = Ok r ->
  exists n stats,
    (forall k, k < n -> cc_area (nth k stats (mkStat 0 0 0 0 0)) = area (r_labels r) k)
    /\ StronglySorted Nat.lt (r_mapper r)
    /\ Forall (fun k => k < 1 + (n - 1)) (r_mapper r)
    /\ Forall (kept_ok tm tt (r_labels r) stats) (r_mapper r)
    /\ Forall top_first (r_boxes r).
Proof.
  intro H. apply getDetBoxes_inv in H.
  apply getDetBoxes_core_inv in H.
  destruct H as (ts & ls & sum & n & stats & st & _ & _ & _ & C & K & -> & ->).
  apply ccws_spec in C. destruct C as [_ A].
  exists n, stats. split; [exact A|].
  eapply components_kept; [exact K|].
  simpl. repeat split; constructor.
Qed.

Lemma components_mapper_from ops tm tt ts ls labels stats : forall ks s s',
  components ops tm tt ts ls labels stats ks s = Ok s' ->
  forall k, In k (mapper s') -> In k (mapper s) \/ In k ks.
Proof.
  induction ks as [|k0 ks IH]; intros s s' Hc k' Hin; simpl in Hc.
  - injection Hc as <-. auto.
  - res_step Hc. destruct (IH _ _ Hc _ Hin) as [Hm|Hm]; [|right; right; exact Hm].
    apply component_cases in E.
    destruct E as [->|(b & c & av & ->)]; [auto|].
    simpl in Hm. apply in_app_or in Hm. destruct Hm as [Hm|[<-|[]]]; [auto|].
    right. left. reflexivity.
Qed.

Lemma mapper_positive ops tm lm tt lt low poly r :
  getDetBoxes ops tm lm tt lt low poly = Ok r ->
  forall k, In k (r_mapper r) -> 1 <= k.
Proof.
  intros H k Hk.
  apply getDetBoxes_inv in H.
  apply getDetBoxes_core_inv in H.
  destruct H as (ts & ls & sum & n & stats & st & _ & _ & _ & C & Kc & _ & E).
  rewrite E in Hk.
  destruct (@components_mapper_from _ _ _ _ _ _ _ _ _ _ Kc k Hk) as [[]|Hs].
  apply in_seq in Hs. lia.
Qed.

(** X6. The labels kept in [mapper] are in strictly ascending order, hence
    pairwise different, and the background label 0 is never among them. *)
Theorem mapper_ascending ops tm lm tt lt low poly r :
  getDetBoxes ops tm lm tt lt low poly = Ok r ->
  StronglySorted Nat.lt (r_mapper r)
  /\ NoDup (r_mapper r)
  /\ forall k, In k (r_mapper r) -> 1 <= k.
Proof.
  intro H. destruct (@getDetBoxes_kept _ _ _ _ _ _ _ _ H) as (n & stats & A & S1 & B & K & T).
  split; [exact S1|]. split.
  - clear - S1. induction S1 as [|a l S1 IH F]; constructor; auto.
    intro Hin. rewrite Forall_forall in F. specialize (F a Hin).
    unfold Nat.lt in F. lia.
  - exact (@mapper_positive _ _ _ _ _ _ _ _ H).
Qed.

(** X7. Every label kept in [mapper] covers at least 10 pixels of the
    label image and has a pixel whose text score is at least
    [text_threshold]: smaller components and components that are link-only
    give no box. *)
Theorem kept_labels_pass_filters ops tm lm tt lt low poly r :
  getDetBoxes ops tm lm tt lt low poly = Ok r ->
  forall k, In k (r_mapper r) ->
    10 <= area (r_labels r) k
    /\ exists i j, get 0 (r_labels r) i j = k /\ (tt <= get 0%Q tm i j)%Q.
Proof.
  intros H k Hk.
  destruct (@getDetBoxes_kept _ _ _ _ _ _ _ _ H) as (n & stats & A & S1 & B & K & T).
  rewrite Forall_forall in B, K. specialize (B k Hk). specialize (K k Hk).
  destruct K as (K1 & vals & mx & Hs & Hm & Hx). split.
  - pose proof (@mapper_positive _ _ _ _ _ _ _ _ H k Hk). rewrite <- A by lia. exact K1.
  - unfold select in Hs. destruct (same_shape _ _); [|discriminate].
    injection Hs as <-.
    unfold Np.max in Hm.
    destruct (concat _) as [|a vals] eqn:Ev; [discriminate|].
    injection Hm as <-.
    pose proof (fold_Qmax_In vals a) as Hin. rewrite <- Ev in Hin.
    apply (select_positions 0%Q) in Hin. destruct Hin as (i & j & F1 & F2).
    exists i, j. split; [apply Nat.eqb_eq; exact F1|].
    rewrite F2. apply Qltb_ge. exact Hx.
Qed.

(** X8. In every box returned, the first or the second vertex is a topmost
    vertex of the box. *)
Theorem returned_boxes_top_first ops tm lm tt lt low poly r :
  getDetBoxes ops tm lm tt lt low poly = Ok r ->
  forall b, In b (r_boxes r) -> top_first b.
Proof.
  intros H b Hb.
  destruct (@getDetBoxes_kept _ _ _ _ _ _ _ _ H) as (n & stats & A & S1 & B & K & T).
  rewrite Forall_forall in T. exact (T b Hb).
Qed.

(** ** Links point downwards *)

Lemma In_combine_seq_nth {A} (l : list A) : forall k i x,
  In (i, x) (combine (seq k (length l)) l) -> k <= i /\ nth_error l (i - k) = Some x.
Proof.
  induction l as [|a l IH]; intros k i x H; simpl in H; [destruct H|].
  destruct H as [H|H].
  - injection H as <- <-. rewrite Nat.sub_diag. split; [lia|reflexivity].
  - apply IH in H. destruct H as [H1 H2]. split; [lia|].
    replace (i - k) with (S (i - S k)) by lia. exact H2.
Qed.

Lemma In_enumerate_nth {A} (l : list A) i x :
  In (i, x) (enumerate l) -> nth_error l i = Some x.
Proof.
  intro H. apply In_combine_seq_nth in H. rewrite Nat.sub_0_r in H. tauto.
Qed.

Lemma last_match_cases items i bi : forall init,
  last_match items i bi init = init
  \/ exists j bj sj,
       In (j, (bj, sj)) items
       /\ last_match items i bi init = Z.of_nat j
       /\ truthy (compare_boxes bi bj) = true.
Proof.
  unfold last_match.
  induction items as [|[j [bj sj]] items IH]; intro init; simpl; [left; reflexivity|].
  destruct (IH (if negb (Nat.eqb i j) && truthy (compare_boxes bi bj)
                then Z.of_nat j else init)) as [E|(j' & bj' & sj' & Hin & E & T)].
  - rewrite E. destruct (negb (Nat.eqb i j) && truthy (compare_boxes bi bj)) eqn:C.
    + right. exists j, bj, sj. apply andb_true_iff in C. tauto.
    + left. reflexivity.
  - right. exists j', bj', sj'. auto.
Qed.

Lemma link_boxes_points_down boxes sizes i v :
  length sizes = length boxes ->
  nth_error (link_boxes boxes sizes) i = Some v ->
  v <> (-1)%Z ->
  exists j bi bj,
    v = Z.of_nat j
    /\ nth_error boxes i = Some bi /\ nth_error boxes j = Some bj
    /\ (centroid_y bi < centroid_y bj)%Q.
Proof.
  intros L H Hv.
  assert (Hi : i < length boxes).
  { rewrite <- (proj1 (link_boxes_ok boxes sizes)). apply nth_error_Some. congruence. }
  destruct (nth_error (combine boxes sizes) i) as [[bi si]|] eqn:E.
  2:{ apply nth_error_None in E. rewrite length_combine in E. lia. }
  rewrite (link_boxes_last_writer _ _ _ E) in H. injection H as <-.
  destruct (last_match_cases (enumerate (combine boxes sizes)) i bi (-1)%Z)
    as [E0|(j & bj & sj & Hin & E0 & T)]; [congruence|].
  exists j, bi, bj. split; [exact E0|].
  apply In_enumerate_nth in Hin.
  assert (P : forall n b s, nth_error (combine boxes sizes) n = Some (b, s) ->
                            nth_error boxes n = Some b).
  { clear. revert sizes. induction boxes as [|b0 boxes IH]; intros [|s0 sizes] [|n] b s H;
      simpl in *; try discriminate.
    - injection H as <- <-. reflexivity.
    - eapply IH; eauto. }
  repeat split; [eapply P; eauto|eapply P; eauto|].
  apply compare_boxes_true_above. exact T.
Qed.

(** X9. A link always points to a box lying lower in the image: when
    word_id[i] is an index j, the centroid of box i is strictly above that
    of box j.  Hence two boxes never point to each other. *)
Theorem word_id_points_down ops tm lm tt lt low poly r :
  getDetBoxes ops tm lm tt lt low poly = Ok r ->
  (forall i v, nth_error (r_word_id r) i = Some v -> v <> (-1)%Z ->
     exists j bi bj,
       v = Z.of_nat j
       /\ nth_error (r_boxes r) i = Some bi /\ nth_error (r_boxes r) j = Some bj
       /\ (centroid_y bi < centroid_y bj)%Q)
  /\ (forall i j, nth_error (r_word_id r) i = Some (Z.of_nat j) ->
                  nth_error (r_word_id r) j <> Some (Z.of_nat i)).
Proof.
  intro H. apply getDetBoxes_inv in H.
  apply getDetBoxes_core_lengths in H. destruct H as (_ & _ & L & W).
  assert (D : forall i v, nth_error (r_word_id r) i = Some v -> v <> (-1)%Z ->
     exists j bi bj,
       v = Z.of_nat j
       /\ nth_error (r_boxes r) i = Some bi /\ nth_error (r_boxes r) j = Some bj
       /\ (centroid_y bi < centroid_y bj)%Q).
  { intros i v Hn Hv. rewrite W in Hn.
    eapply link_boxes_points_down; eauto. }
  split; [exact D|].
  intros i j H1 H2.
  destruct (D _ _ H1) as (j1 & bi & bj & E1 & Bi & Bj & C1); [lia|].
  destruct (D _ _ H2) as (i1 & bj' & bi' & E2 & Bj' & Bi' & C2); [lia|].
  apply Nat2Z.inj in E1, E2. subst j1 i1.
  rewrite Bj in Bj'. rewrite Bi in Bi'. injection Bj' as <-. injection Bi' as <-.
  exact (Qlt_irrefl _ (Qlt_trans _ _ _ C1 C2)).
Qed.

(** ** The label image *)

(** X10. For maps of one shape, the label image returned has that shape. *)
Theorem labels_shape ops h w tm lm tt lt low poly r :
  rect h w tm -> rect h w lm ->
  getDetBoxes ops tm lm tt lt low poly = Ok r ->
  rect h w (r_labels r).
Proof.
  intros Rt Rl H. apply getDetBoxes_inv in H. apply getDetBoxes_core_inv in H.
  destruct H as (ts & ls & sum & n & stats & st & Ts & Ls & B & C & _).
  apply threshold_inv in Ts, Ls.
  destruct Ts as [_ ->]. destruct Ls as [_ ->].
  rewrite (@binop_rect _ _ _ Qplus h w) in B by (apply rect_map2; assumption).
  injection B as <-.
  apply ccws_spec in C. destruct C as [L _].
  rewrite map2_lengths in L. unfold clip in L. rewrite map2_lengths in L.
  rewrite zip_with_lengths in L
    by (rewrite !map2_lengths; unfold rect in *; congruence).
  rewrite map2_lengths in L. unfold rect in *. congruence.
Qed.

Lemma all_map2 {A B} (P : A -> Prop) (Q0 : B -> Prop) (f : A -> B) (m : array2 A) :
  (forall a, P a -> Q0 (f a)) ->
  Forall (Forall P) m -> Forall (Forall Q0) (map2 f m).
Proof.
  intros F H. unfold map2. induction H as [|r m Hr Hm IH]; simpl; constructor; auto.
  clear - F Hr. induction Hr; simpl; constructor; auto.
Qed.

Lemma all_zip_with {A B C} (P : A -> Prop) (Q0 : B -> Prop) (R : C -> Prop)
    (f : A -> B -> C) (x : array2 A) (y : array2 B) :
  (forall a b, P a -> Q0 b -> R (f a b)) ->
  Forall (Forall P) x -> Forall (Forall Q0) y ->
  Forall (Forall R) (zip_with (zip_with f) x y).
Proof.
  intros F Hx. revert y. induction Hx as [|r x Hr Hx IH]; intros y Hy; simpl;
    [constructor|].
  destruct Hy as [|s y Hs Hy]; [constructor|]. constructor; [|auto].
  clear - F Hr Hs. revert s Hs. induction Hr as [|a r Ha Hr IH]; intros s Hs; simpl;
    [constructor|].
  destruct Hs as [|b s Hb Hs]; constructor; auto.
Qed.

Lemma get_all {A} (P : A -> Prop) (d : A) (m : array2 A) i j :
  Forall (Forall P) m -> P d -> P (get d m i j).
Proof.
  intros H Hd. unfold get.
  destruct (nth_error m i) as [r|] eqn:E.
  - rewrite (nth_error_nth _ _ _ E).
    apply nth_error_In in E. rewrite Forall_forall in H. specialize (H r E).
    destruct (nth_error r j) as [a|] eqn:E2.
    + rewrite (nth_error_nth _ _ _ E2). rewrite Forall_forall in H.
      apply H. eapply nth_error_In; eauto.
    + apply nth_error_None in E2. rewrite nth_overflow by exact E2. exact Hd.
  - apply nth_error_None in E. rewrite (nth_overflow m) by exact E.
    destruct j; exact Hd.
Qed.

Lemma forallb_all {A} (p : A -> bool) (m : array2 A) :
  forallb (forallb p) m = true -> Forall (Forall (fun a => p a = true)) m.
Proof.
  intro H. rewrite forallb_forall in H. apply Forall_forall. intros r Hr.
  specialize (H r Hr). rewrite forallb_forall in H. apply Forall_forall. exact H.
Qed.

Lemma label_image_blank img :
  (forall i j, get false img i j = false) ->
  label_image img = (0, full_like img 0).
Proof.
  intro B. unfold label_image.
  induction (coords img) as [|p ps IH]; simpl; [reflexivity|].
  rewrite B. simpl. exact IH.
Qed.

Lemma full_like_lengths_eq {A B C} (a : array2 A) (b : array2 B) (v : C) :
  map (@length A) a = map (@length B) b -> full_like a v = full_like b v.
Proof.
  unfold full_like. revert b. induction a as [|r a IH]; intros [|s b] H; simpl in *;
    try discriminate; [reflexivity|].
  injection H as -> H. f_equal. auto.
Qed.

(** X11. No detected region is not an error: on non-empty maps of one shape
    (h x w with 0 < h and 0 < w) where no text score exceeds [low_text] and
    no link score exceeds [link_threshold], the call returns its record with
    an all-zero label image and every per-box list empty. *)
Theorem no_foreground_empty_result ops h w tm lm tt lt low poly :
  0 < h -> 0 < w ->
  rect h w tm -> rect h w lm ->
  forallb (forallb (fun v => Qleb v low)) tm = true ->
  forallb (forallb (fun v => Qleb v lt)) lm = true ->
  getDetBoxes ops tm lm tt lt low poly
  = Ok (mkDetection [] (full_like tm 0) [] [] [] [] []).
Proof.
  intros Hh Hw Rt Rl Vt Vl.
  unfold getDetBoxes, getDetBoxes_core.
  rewrite !(@threshold_Some _ _ _ (rect_nonempty Hh Hw Rt)).
  rewrite !(@threshold_Some _ _ _ (rect_nonempty Hh Hw Rl)).
  rewrite (@binop_rect _ _ _ Qplus h w) by (apply rect_map2; assumption).
  rewrite bind_Ok.
  set (sum := zip_with _ _ _).
  assert (Z0 : Forall (Forall (fun v => v = (0 + 0)%Q)) sum).
  { apply (@all_zip_with _ _ _ (fun v => v = 0%Q) (fun v => v = 0%Q)).
    - intros a b -> ->. reflexivity.
    - apply all_map2 with (P := fun v => Qleb v low = true); [|apply forallb_all; exact Vt].
      intros a Ha. unfold Qltb, Qleb in *. rewrite Ha. reflexivity.
    - apply all_map2 with (P := fun v => Qleb v lt = true); [|apply forallb_all; exact Vl].
      intros a Ha. unfold Qltb, Qleb in *. rewrite Ha. reflexivity. }
  assert (L : map (@length Q) sum = map (@length Q) tm).
  { unfold sum. rewrite zip_with_lengths
      by (rewrite !map2_lengths; unfold rect in *; congruence).
    apply map2_lengths. }
  unfold connectedComponentsWithStats.
  rewrite label_image_blank.
  - simpl.
    rewrite (@full_like_lengths_eq _ _ _ _ tm 0)
      by (rewrite !map2_lengths; unfold clip; rewrite map2_lengths; exact L).
    destruct poly; reflexivity.
  - intros i j. apply (@get_all bool (fun b => b = false)); [|reflexivity].
    apply all_map2 with (P := fun z => z = 0%Z); [intros a ->; reflexivity|].
    apply all_map2 with (P := fun v => v = Qmin (Qmax (0 + 0) 0) 1);
      [intros a ->; reflexivity|].
    unfold clip. apply all_map2 with (P := fun v => v = (0 + 0)%Q);
      [intros a ->; reflexivity|exact Z0].
Qed.

(** ** The polygon tracer *)

Lemma set_item_Ok {A} (l l' : list A) i v :
  set_item l i v = Ok l' -> length l' = length l /\ i < length l.
Proof.
  unfold set_item. destruct (i <? length l) eqn:E; [|discriminate].
  intro H. injection H as <-. split; [apply upd_length|apply Nat.ltb_lt; exact E].
Qed.

Lemma set_item_in_range {A} (l : list A) i v :
  i < length l -> exists l', set_item l i v = Ok l' /\ length l' = length l.
Proof.
  intro H. unfold set_item. apply Nat.ltb_lt in H. rewrite H.
  eexists. split; [reflexivity|apply upd_length].
Qed.

Lemma get_item_in_range {A} (l : list A) i :
  i < length l -> exists a, get_item l i = Ok a.
Proof.
  intro H. unfold get_item. destruct (nth_error l i) eqn:E; [eauto|].
  apply nth_error_None in E. lia.
Qed.

(** The three lists of the pivot loop keep their lengths. *)
Lemma pivot_loop_lengths seg_w cp : forall st st',
  pivot_loop seg_w cp st = Ok st' ->
  length (cp_section st') = length (cp_section st)
  /\ length (pp st') = length (pp st)
  /\ length (seg_height st') = length (seg_height st).
Proof.
  induction cp as [|[[x sy] ey] cp IH]; intros st st' H.
  - simpl in H. injection H as <-. auto.
  - cbn [pivot_loop] in H.
    res_step H.
    assert (A : match a with
                | None => True
                | Some s1 => length (cp_section s1) = length (cp_section st)
                             /\ length (pp s1) = length (pp st)
                             /\ length (seg_height s1) = length (seg_height st)
                end).
    { destruct (_ && _) in E.
      - destruct (num_sec st =? 0) in E; [injection E as <-; exact I|].
        res_step E. res_step E. injection E as <-. simpl.
        apply set_item_Ok in E1. tauto.
      - injection E as <-. auto. }
    destruct a as [s1|]; [|injection H as <-; auto].
    destruct A as (A1 & A2 & A3).
    res_step H. res_step H. apply set_item_Ok in E1. destruct E1 as [L1 _].
    cbn [seg_num num_sec prev_h cp_section pp seg_height] in H.
    destruct (seg_num s1 mod 2 =? 0).
    + apply IH in H. simpl in H. intuition congruence.
    + destruct (prev_h s1 <? _)%Z.
      * res_step H. res_step H.
        apply set_item_Ok in E1, E2. destruct E1 as [L2 _]. destruct E2 as [L3 _].
        apply IH in H. simpl in H. intuition congruence.
      * apply IH in H. simpl in H. intuition congruence.
Qed.

Lemma all_some_length {A} (l : list (option A)) : forall l',
  all_some l = Some l' -> length l' = length l.
Proof.
  induction l as [|[a|] l IH]; intros l' H; simpl in H; try discriminate.
  - injection H as <-. reflexivity.
  - destruct (all_some l) as [t|]; [|discriminate].
    injection H as <-. simpl. f_equal. auto.
Qed.

Lemma enumerate_length {A} (l : list A) : length (enumerate l) = length l.
Proof. unfold enumerate. rewrite length_combine, length_seq. lia. Qed.

Lemma getPoly_box_ring ops labels mp k box poly :
  getPoly_box ops labels mp k box = Ok (Fit poly) -> length poly = 14.
Proof.
  unfold getPoly_box. intro H.
  res_step H; [discriminate|].
  destruct (inv3 _) as [Minv|]; [|discriminate].
  res_step H.
  destruct (find_contours _ _ _ _) as [cp max_len].
  res_step H; [discriminate|].
  res_step H.
  destruct (all_some (pp a0)) as [pps|] eqn:P; [|discriminate].
  res_step H; [discriminate|].
  apply pivot_loop_lengths in E2. simpl in E2. destruct E2 as (_ & L & _).
  apply all_some_length in P. rewrite L in P.
  destruct (cap_search _ _ _ _ _ _ _ _ _ _) as [[[[[s0 s1] s2] s3]|] [[[[e0 e1] e2] e3]|]];
    try discriminate.
  injection H as <-.
  assert (N : length (make_new_pp ops
                 (median (seg_height a0) * expand_ratio / 2)
                 (if negb (num_sec a0 =? 0)
                  then upd (cp_section a0) (length (cp_section a0) - 1)
                         (fst (last (cp_section a0) (0%Q, 0%Q)) / inject_nat (num_sec a0),
                          snd (last (cp_section a0) (0%Q, 0%Q)) / inject_nat (num_sec a0))%Q
                  else cp_section a0) pps) = 5).
  { unfold make_new_pp. rewrite length_map, enumerate_length. exact P. }
  repeat (cbn [app length]; rewrite ?length_app, ?length_map, ?length_rev).
  rewrite N. reflexivity.
Qed.

Lemma getPoly_from_ring ops labels mp boxes : forall k polys,
  getPoly_from ops labels mp k boxes = Ok polys ->
  forall p, In (Some p) polys -> length p = 14.
Proof.
  induction boxes as [|b boxes IH]; intros k polys H p Hp; simpl in H.
  - injection H as <-. destruct Hp.
  - res_step H. res_step H. injection H as <-.
    destruct Hp as [Hp|Hp]; [|eapply IH; eauto].
    destruct a as [poly|why]; simpl in Hp; [|discriminate].
    injection Hp as ->. eapply getPoly_box_ring; eauto.
Qed.

(** X12. Every polygon returned by [getPoly_core] is a ring of exactly 14
    points: the two end caps and the upper and lower points of the five
    pivots. *)
Theorem polygons_have_14_points ops boxes labels mp lm polys :
  getPoly_core ops boxes labels mp lm = Ok polys ->
  forall p, In (Some p) polys -> length p = 14.
Proof.
  unfold getPoly_core. apply getPoly_from_ring.
Qed.

Lemma find_contours_cols wl n : forall cols cp0 ml,
  Forall (fun e : nat * nat * nat => fst (fst e) < n) cp0 ->
  Forall (fun i => i < n) cols ->
  Forall (fun e : nat * nat * nat => fst (fst e) < n) (fst (find_contours wl cols cp0 ml)).
Proof.
  induction cols as [|i cols IH]; intros cp0 ml H0 Hc; simpl; [exact H0|].
  inversion Hc; subst.
  destruct (length _ <? 2); [apply IH; assumption|].
  apply IH; [|assumption].
  apply Forall_app. split; [exact H0|]. constructor; [assumption|constructor].
Qed.

Lemma advance_bound (s x : nat) (w : Z) :
  (0 < w)%Z -> x < Z.to_nat w ->
  Qleb (inject_nat (s + 1) * (inject_Z w / inject_nat tot_seg))%Q (inject_nat x) = true ->
  s + 1 < 11.
Proof.
  intros Hw Hx H. unfold Qleb in H. apply Qle_bool_iff in H.
  destruct (Nat.lt_ge_cases (s + 1) 11) as [L|L]; [exact L|exfalso].
  assert (Q1 : (inject_nat x < inject_Z w)%Q).
  { unfold inject_nat. rewrite <- Zlt_Qlt. lia. }
  assert (Q2 : (11 <= inject_nat (s + 1))%Q).
  { unfold inject_nat. change 11%Q with (inject_Z 11). rewrite <- Zle_Qle. lia. }
  assert (Q3 : (0 < inject_Z w)%Q).
  { change 0%Q with (inject_Z 0). rewrite <- Zlt_Qlt. exact Hw. }
  change (inject_nat tot_seg) with 11%Q in H.
  assert (Q4 : (inject_Z w / 11 == inject_Z w * (1 # 11))%Q) by (field; discriminate).
  rewrite Q4 in H.
  set (a := inject_nat (s + 1)) in *. set (b := inject_Z w) in *.
  set (c := inject_nat x) in *.
  assert (Q5 : (11 * (b * (1 # 11)) <= a * (b * (1 # 11)))%Q).
  { apply Qmult_le_compat_r; [exact Q2|]. lra. }
  lra.
Qed.

Lemma pivot_loop_total (w : Z) cp : forall st,
  (0 < w)%Z ->
  Forall (fun e : nat * nat * nat => fst (fst e) < Z.to_nat w) cp ->
  seg_num st < 11 -> length (cp_section st) = 11 ->
  length (pp st) = 5 -> length (seg_height st) = 5 ->
  exists st', pivot_loop (inject_Z w / inject_nat tot_seg)%Q cp st = Ok st'.
Proof.
  induction cp as [|[[x sy] ey] cp IH]; intros st Hw Hc S1 L1 L2 L3.
  - simpl. eauto.
  - inversion Hc as [|e cp' Hx Hc']; subst. simpl in Hx.
    cbn [pivot_loop].
    assert (A : exists adv,
      (if Qleb (inject_nat (seg_num st + 1) * (inject_Z w / inject_nat tot_seg))%Q
               (inject_nat x) && (seg_num st <=? tot_seg)
       then
         if num_sec st =? 0 then Ok None
         else
           cur <- get_item (cp_section st) (seg_num st) ;;
           sec <- set_item (cp_section st) (seg_num st)
                    (fst cur / inject_nat (num_sec st),
                     snd cur / inject_nat (num_sec st))%Q ;;
           Ok (Some (mkPivot (seg_num st + 1) 0 (-1)%Z sec (pp st) (seg_height st)))
       else Ok (Some st)) = Ok adv
      /\ match adv with
         | None => True
         | Some s1 => seg_num s1 < 11 /\ length (cp_section s1) = 11
                      /\ length (pp s1) = 5 /\ length (seg_height s1) = 5
         end).
    { destruct (Qleb _ _) eqn:C; simpl andb.
      - destruct (seg_num st <=? tot_seg); [|eexists; split; [reflexivity|simpl; auto]].
        destruct (num_sec st =? 0); [eexists; split; [reflexivity|exact I]|].
        destruct (@get_item_in_range _ (cp_section st) (seg_num st)) as [cur Hg]; [lia|].
        rewrite Hg, bind_Ok.
        destruct (@set_item_in_range _ (cp_section st) (seg_num st)
                    (fst cur / inject_nat (num_sec st),
                     snd cur / inject_nat (num_sec st))%Q) as (sec & Hs & Ls); [lia|].
        rewrite Hs, bind_Ok. eexists. split; [reflexivity|]. simpl.
        pose proof (@advance_bound _ _ _ Hw Hx C). repeat split; lia.
      - eexists. split; [reflexivity|simpl; auto]. }
    destruct A as (adv & -> & Hadv). rewrite bind_Ok.
    destruct adv as [s1|]; [|eauto].
    destruct Hadv as (T1 & T2 & T3 & T4).
    destruct (@get_item_in_range _ (cp_section s1) (seg_num s1)) as [cur Hg]; [lia|].
    rewrite Hg, bind_Ok.
    destruct (@set_item_in_range _ (cp_section s1) (seg_num s1)
                (fst cur + inject_nat x,
                 snd cur + inject_nat (sy + ey) * (1 # 2))%Q) as (sec & Hs & Ls); [lia|].
    rewrite Hs, bind_Ok.
    cbn [seg_num num_sec prev_h cp_section pp seg_height].
    destruct (seg_num s1 mod 2 =? 0).
    + apply IH; simpl; auto; lia.
    + destruct (prev_h s1 <? _)%Z.
      * assert (I4 : (seg_num s1 - 1) / 2 < 5).
        { apply Nat.Div0.div_lt_upper_bound. lia. }
        destruct (@set_item_in_range _ (pp s1) ((seg_num s1 - 1) / 2) (Some (x, (inject_nat (sy + ey) * (1 # 2))%Q)))
          as (pp' & Hp & Lp); [lia|].
        rewrite Hp, bind_Ok.
        destruct (@set_item_in_range _ (seg_height s1) ((seg_num s1 - 1) / 2)
                    (Z.of_nat ey - Z.of_nat sy + 1)%Z) as (sh' & Hh & Lh); [lia|].
        rewrite Hh, bind_Ok.
        apply IH; simpl; auto; lia.
      * apply IH; simpl; auto; lia.
Qed.

Lemma getPoly_box_total ops labels mp k box :
  k < length mp -> exists o, getPoly_box ops labels mp k box = Ok o.
Proof.
  intro Hk. unfold getPoly_box.
  destruct ((_ <? 10)%Z || (_ <? 10)%Z) eqn:F; [eauto|].
  apply orb_false_iff in F. destruct F as [F1 F2].
  apply Z.ltb_ge in F1, F2.
  destruct (inv3 _) as [Minv|]; [|eauto].
  destruct (@get_item_in_range _ mp k Hk) as [cur ->]. rewrite bind_Ok.
  set (w := py_int _) in *.
  match goal with
  | |- context [find_contours ?wl ?cols ?c ?m] =>
      pose proof (@find_contours_cols wl (Z.to_nat w) cols c m) as Hc;
      destruct (find_contours wl cols c m) as [cp max_len]
  end.
  simpl in Hc.
  destruct (Qltb _ _); [eauto|].
  destruct (@pivot_loop_total w cp
              (mkPivot 0 0 (-1)%Z (repeat (0%Q, 0%Q) tot_seg) (repeat None num_cp)
                       (repeat 0%Z num_cp))) as [st Hst];
    try reflexivity; try lia.
  { apply Hc; [constructor|]. apply Forall_forall. intros i Hi.
    apply in_seq in Hi. lia. }
  { simpl. lia. }
  rewrite Hst, bind_Ok.
  destruct (all_some (pp st)) as [pps|]; [|eauto].
  destruct (Qltb _ _); [eauto|].
  destruct (cap_search _ _ _ _ _ _ _ _ _ _) as [[[[[s0 s1] s2] s3]|] [[[[e0 e1] e2] e3]|]];
    eauto.
Qed.

Lemma getPoly_from_total ops labels mp boxes : forall k,
  k + length boxes <= length mp ->
  exists polys, getPoly_from ops labels mp k boxes = Ok polys.
Proof.
  induction boxes as [|b boxes IH]; intros k H; simpl; [eauto|].
  simpl in H.
  destruct (@getPoly_box_total ops labels mp k b) as [o ->]; [lia|].
  rewrite bind_Ok.
  destruct (IH (S k)) as [polys ->]; [lia|].
  rewrite bind_Ok. eauto.
Qed.

(** X13. [getPoly_core] never raises when [mapper] has an entry for every
    box: each box gets a polygon or [None], and the result has one entry per
    box.  The indices used in the pivot loop stay inside its lists of 11
    sections and 5 pivots. *)
Theorem getPoly_core_returns ops boxes labels mp lm :
  length boxes <= length mp ->
  exists polys,
    getPoly_core ops boxes labels mp lm = Ok polys
    /\ length polys = length boxes.
Proof.
  intro H. unfold getPoly_core.
  destruct (@getPoly_from_total ops labels mp boxes 0) as [polys E]; [lia|].
  exists polys. split; [exact E|]. eapply getPoly_from_length; eauto.
Qed.

(** X14. Asking for polygons never turns a successful call into a failing
    one: whenever [getDetBoxes] returns without polygons, it returns with
    them, the other six fields being the same. *)
Theorem polygons_add_no_error ops tm lm tt lt low r :
  getDetBoxes ops tm lm tt lt low false = Ok r ->
  exists polys,
    getDetBoxes ops tm lm tt lt low true
    = Ok (mkDetection (r_boxes r) (r_labels r) (r_mapper r) (r_num_characters r)
                      (r_average_character_size r) (r_word_id r) polys)
    /\ length polys = length (r_boxes r).
Proof.
  intro H. pose proof (@getDetBoxes_inv _ _ _ _ _ _ _ _ H) as C.
  pose proof (@getDetBoxes_core_lengths _ _ _ _ _ _ _ _ _ _ _ _ C) as (L & _).
  destruct (@getPoly_from_total ops (r_labels r) (r_mapper r) (r_boxes r) 0)
    as (polys & E); [lia|].
  pose proof (getPoly_from_length _ _ _ _ _ E) as Lp.
  fold (getPoly_core ops (r_boxes r) (r_labels r) (r_mapper r) lm) in E.
  exists polys. split; [|exact Lp].
  unfold getDetBoxes. rewrite C, bind_Ok. cbv beta iota. rewrite E, bind_Ok. reflexivity.
Qed.

Lemma filter_none {A} (f : A -> bool) (l : list A) :
  (forall x, In x l -> f x = false) -> filter f l = [].
Proof.
  induction l as [|a l IH]; intro H; simpl; [reflexivity|].
  rewrite (H a (or_introl eq_refl)). apply IH. intros; apply H; right; assumption.
Qed.

Lemma nonzero_rows_blank col : Forall (fun v => v = 0) col -> nonzero_rows col = [].
Proof.
  intro H. unfold nonzero_rows. rewrite filter_none; [reflexivity|].
  intros [i v] Hin. unfold enumerate in Hin. apply in_combine_r in Hin.
  rewrite Forall_forall in H. simpl. rewrite (H v Hin). reflexivity.
Qed.

Lemma find_contours_blank wl : Forall (Forall (fun v => v = 0)) wl ->
  forall cols cp ml, find_contours wl cols cp ml = (cp, ml).
Proof.
  intros H cols. induction cols as [|i cols IH]; intros cp ml; simpl; [reflexivity|].
  rewrite nonzero_rows_blank; [apply IH|].
  apply Forall_forall. intros v Hv. apply in_map_iff in Hv.
  destruct Hv as (r & <- & Hr). rewrite Forall_forall in H. specialize (H r Hr).
  destruct (nth_in_or_default i r 0) as [Hin|Hd]; [|exact Hd].
  rewrite Forall_forall in H. exact (H _ Hin).
Qed.

(** X15. A box whose straightened strip holds no pixel of the box's own
    label gets no polygon: its entry is [None]. *)
Theorem blank_strip_unfit ops labels mp k box cur :
  nth_error mp k = Some cur ->
  forallb (forallb (fun l => negb (Nat.eqb l cur)))
          (warpPerspective ops labels (transform_of ops box)
             (Z.to_nat (box_w ops box)) (Z.to_nat (box_h ops box))) = true ->
  getPoly_from ops labels mp k [box] = Ok [None].
Proof.
  intros Hk Hs.
  assert (U : exists why, getPoly_box ops labels mp k box = Ok (Unfit why)).
  { unfold getPoly_box.
    destruct ((_ <? 10)%Z || (_ <? 10)%Z) eqn:F; [eauto|].
    apply orb_false_iff in F. destruct F as [F1 F2]. apply Z.ltb_ge in F2.
    fold (box_w ops box). fold (box_h ops box).
    change (getPerspectiveTransform ops box _) with (transform_of ops box).
    destruct (inv3 _) as [Minv|]; [|eauto].
    unfold get_item. rewrite Hk, bind_Ok.
    rewrite find_contours_blank.
    - assert (T : Qltb (inject_Z (box_h ops box) * max_len_ratio)%Q (inject_Z (-1)) = false).
      { apply Qltb_ge. unfold max_len_ratio, box_h.
        assert (10 <= inject_Z (py_int (d ops (v1 box) (v2 box) + 1)))%Q.
        { change 10%Q with (inject_Z 10). rewrite <- Zle_Qle. exact F2. }
        change (inject_Z (-1)) with (-1)%Q. lra. }
      rewrite T. simpl. eauto.
    - apply all_map2 with (P := fun v => v = 0); [intros a ->; reflexivity|].
      apply all_map2 with (P := fun l => negb (Nat.eqb l cur) = true);
        [|apply forallb_all; exact Hs].
      intros a Ha. rewrite Ha. reflexivity. }
  destruct U as [why U]. simpl. rewrite U. reflexivity.
Qed.

(** ** The adjacency entry of a returned box *)

Lemma nth_error_combine {A B} (l1 : list A) (l2 : list B) : forall i a,
  length l1 = length l2 -> nth_error l1 i = Some a ->
  exists b, nth_error (combine l1 l2) i = Some (a, b).
Proof.
  revert l2. induction l1 as [|x l1 IH]; intros [|y l2] [|i] a L H; simpl in *;
    try discriminate.
  - injection H as <-. eauto.
  - apply IH; [lia|exact H].
Qed.

(** X16. Last writer wins: in the record returned, word_id[i] is the
    index of the last box j, other than i and in list order, that
    [compare_boxes] accepts for box i, and -1 when it accepts none. *)
Theorem word_id_last_writer ops tm lm tt lt low poly r :
  getDetBoxes ops tm lm tt lt low poly = Ok r ->
  forall i bi, nth_error (r_boxes r) i = Some bi ->
    nth_error (r_word_id r) i
    = Some (last_match (enumerate (combine (r_boxes r) (r_average_character_size r)))
                       i bi (-1)%Z).
Proof.
  intros H i bi Hb. apply getDetBoxes_inv in H.
  apply getDetBoxes_core_lengths in H. destruct H as (_ & _ & L & ->).
  destruct (nth_error_combine (r_boxes r) (r_average_character_size r) i L Hb) as [si E].
  exact (link_boxes_last_writer _ _ _ E).
Qed.

(** ** Runs of the further properties on concrete inputs *)

Lemma warpCoord_inverse_witness :
  inv3 tilt = Ok tilt_inv
  /\ ~ (m20 tilt * 5 + m21 tilt * 7 + m22 tilt == 0)%Q
  /\ (px (warpCoord tilt_inv (warpCoord tilt (5, 7)%Q)) == 5)%Q
  /\ (py (warpCoord tilt_inv (warpCoord tilt (5, 7)%Q)) == 7)%Q.
Proof.
  assert (H : inv3 tilt = Ok tilt_inv) by (vm_compute; reflexivity).
  assert (W : ~ (m20 tilt * 5 + m21 tilt * 7 + m22 tilt == 0)%Q)
    by (vm_compute; discriminate).
  split; [exact H|]. split; [exact W|].
  exact (@warpCoord_inverse tilt tilt_inv 5%Q 7%Q H W).
Defined.

Lemma mapper_ascending_witness :
  getDetBoxes Reference.ops Examples.two_lines_text Examples.two_lines_link
              (7 # 10) (4 # 10) (4 # 10) true = Ok Examples.two_lines_result
  /\ StronglySorted Nat.lt (r_mapper Examples.two_lines_result)
  /\ NoDup (r_mapper Examples.two_lines_result)
  /\ forall k, In k (r_mapper Examples.two_lines_result) -> 1 <= k.
Proof.
  assert (H : getDetBoxes Reference.ops Examples.two_lines_text Examples.two_lines_link
                (7 # 10) (4 # 10) (4 # 10) true = Ok Examples.two_lines_result)
    by (vm_compute; reflexivity).
  split; [exact H|].
  exact (@mapper_ascending _ _ _ _ _ _ _ _ H).
Defined.

Lemma kept_labels_pass_filters_witness :
  getDetBoxes Reference.ops Examples.two_lines_text Examples.two_lines_link
              (7 # 10) (4 # 10) (4 # 10) true = Ok Examples.two_lines_result
  /\ In 2 (r_mapper Examples.two_lines_result)
  /\ 10 <= area (r_labels Examples.two_lines_result) 2
  /\ exists i j, get 0 (r_labels Examples.two_lines_result) i j = 2
                 /\ ((7 # 10) <= get 0%Q Examples.two_lines_text i j)%Q.
Proof.
  assert (H : getDetBoxes Reference.ops Examples.two_lines_text Examples.two_lines_link
                (7 # 10) (4 # 10) (4 # 10) true = Ok Examples.two_lines_result)
    by (vm_compute; reflexivity).
  assert (I : In 2 (r_mapper Examples.two_lines_result)) by (right; left; reflexivity).
  split; [exact H|]. split; [exact I|].
  exact (@kept_labels_pass_filters _ _ _ _ _ _ _ _ H 2 I).
Defined.

Lemma returned_boxes_top_first_witness :
  getDetBoxes Reference.ops Examples.two_lines_text Examples.two_lines_link
              (7 # 10) (4 # 10) (4 # 10) true = Ok Examples.two_lines_result
  /\ In (hd Examples.tiny_box (r_boxes Examples.two_lines_result))
        (r_boxes Examples.two_lines_result)
  /\ top_first (hd Examples.tiny_box (r_boxes Examples.two_lines_result)).
Proof.
  assert (H : getDetBoxes Reference.ops Examples.two_lines_text Examples.two_lines_link
                (7 # 10) (4 # 10) (4 # 10) true = Ok Examples.two_lines_result)
    by (vm_compute; reflexivity).
  assert (I : In (hd Examples.tiny_box (r_boxes Examples.two_lines_result))
                 (r_boxes Examples.two_lines_result)) by (left; reflexivity).
  split; [exact H|]. split; [exact I|].
  exact (@returned_boxes_top_first _ _ _ _ _ _ _ _ H _ I).
Defined.

Lemma word_id_points_down_witness :
  getDetBoxes Reference.ops Examples.two_lines_text Examples.two_lines_link
              (7 # 10) (4 # 10) (4 # 10) true = Ok Examples.two_lines_result
  /\ nth_error (r_word_id Examples.two_lines_result) 0 = Some 1%Z
  /\ 1%Z <> (-1)%Z
  /\ exists j bi bj,
       1%Z = Z.of_nat j
       /\ nth_error (r_boxes Examples.two_lines_result) 0 = Some bi
       /\ nth_error (r_boxes Examples.two_lines_result) j = Some bj
       /\ (centroid_y bi < centroid_y bj)%Q.
Proof.
  assert (H : getDetBoxes Reference.ops Examples.two_lines_text Examples.two_lines_link
                (7 # 10) (4 # 10) (4 # 10) true = Ok Examples.two_lines_result)
    by (vm_compute; reflexivity).
  assert (N : nth_error (r_word_id Examples.two_lines_result) 0 = Some 1%Z) by reflexivity.
  assert (D : 1%Z <> (-1)%Z) by discriminate.
  split; [exact H|]. split; [exact N|]. split; [exact D|].
  exact (proj1 (@word_id_points_down _ _ _ _ _ _ _ _ H) 0 1%Z N D).
Defined.

Lemma word_id_last_writer_witness :
  getDetBoxes Reference.ops Examples.two_lines_text Examples.two_lines_link
              (7 # 10) (4 # 10) (4 # 10) true = Ok Examples.two_lines_result
  /\ nth_error (r_boxes Examples.two_lines_result) 0
     = Some (hd Examples.tiny_box (r_boxes Examples.two_lines_result))
  /\ nth_error (r_word_id Examples.two_lines_result) 0
     = Some (last_match
               (enumerate (combine (r_boxes Examples.two_lines_result)
                                   (r_average_character_size Examples.two_lines_result)))
               0 (hd Examples.tiny_box (r_boxes Examples.two_lines_result)) (-1)%Z).
Proof.
  assert (H : getDetBoxes Reference.ops Examples.two_lines_text Examples.two_lines_link
                (7 # 10) (4 # 10) (4 # 10) true = Ok Examples.two_lines_result)
    by (vm_compute; reflexivity).
  assert (N : nth_error (r_boxes Examples.two_lines_result) 0
              = Some (hd Examples.tiny_box (r_boxes Examples.two_lines_result)))
    by reflexivity.
  split; [exact H|]. split; [exact N|].
  exact (@word_id_last_writer _ _ _ _ _ _ _ _ H 0 _ N).
Defined.

Lemma labels_shape_witness :
  rect 12 12 Examples.two_lines_text
  /\ rect 12 12 Examples.two_lines_link
  /\ getDetBoxes Reference.ops Examples.two_lines_text Examples.two_lines_link
                 (7 # 10) (4 # 10) (4 # 10) true = Ok Examples.two_lines_result
  /\ rect 12 12 (r_labels Examples.two_lines_result).
Proof.
  assert (R1 : rect 12 12 Examples.two_lines_text) by reflexivity.
  assert (R2 : rect 12 12 Examples.two_lines_link) by reflexivity.
  assert (H : getDetBoxes Reference.ops Examples.two_lines_text Examples.two_lines_link
                (7 # 10) (4 # 10) (4 # 10) true = Ok Examples.two_lines_result)
    by (vm_compute; reflexivity).
  repeat (split; [assumption|]).
  exact (@labels_shape _ _ _ _ _ _ _ _ _ _ R1 R2 H).
Defined.

Lemma no_foreground_empty_result_witness :
  0 < 4 /\ 0 < 5
  /\ rect 4 5 faint_text
  /\ rect 4 5 faint_link
  /\ forallb (forallb (fun v => Qleb v (4 # 10))) faint_text = true
  /\ forallb (forallb (fun v => Qleb v (4 # 10))) faint_link = true
  /\ getDetBoxes Reference.ops faint_text faint_link (7 # 10) (4 # 10) (4 # 10) true
     = Ok (mkDetection [] (full_like faint_text 0) [] [] [] [] []).
Proof.
  assert (Hh : 0 < 4) by lia.
  assert (Hw : 0 < 5) by lia.
  assert (R1 : rect 4 5 faint_text) by reflexivity.
  assert (R2 : rect 4 5 faint_link) by reflexivity.
  assert (V1 : forallb (forallb (fun v => Qleb v (4 # 10))) faint_text = true)
    by (vm_compute; reflexivity).
  assert (V2 : forallb (forallb (fun v => Qleb v (4 # 10))) faint_link = true)
    by (vm_compute; reflexivity).
  repeat (split; [assumption|]).
  exact (@no_foreground_empty_result Reference.ops 4 5 faint_text faint_link
           (7 # 10) (4 # 10) (4 # 10) true Hh Hw R1 R2 V1 V2).
Defined.

Lemma polygons_have_14_points_witness :
  getPoly_core Reference.ops [Examples.narrow_box] Examples.stripe_labels [1] []
  = Ok narrow_polys
  /\ forall p, In (Some p) narrow_polys -> length p = 14.
Proof.
  assert (H : getPoly_core Reference.ops [Examples.narrow_box] Examples.stripe_labels [1] []
              = Ok narrow_polys) by (vm_compute; reflexivity).
  split; [exact H|].
  exact (@polygons_have_14_points _ _ _ _ _ _ H).
Defined.

Lemma getPoly_core_returns_witness :
  length [Examples.narrow_box; Examples.flat_box] <= length [1; 1]
  /\ exists polys,
       getPoly_core Reference.ops [Examples.narrow_box; Examples.flat_box]
                    Examples.stripe_labels [1; 1] [] = Ok polys
       /\ length polys = length [Examples.narrow_box; Examples.flat_box].
Proof.
  assert (L : length [Examples.narrow_box; Examples.flat_box] <= length [1; 1])
    by (simpl; lia).
  split; [exact L|].
  exact (@getPoly_core_returns Reference.ops [Examples.narrow_box; Examples.flat_box]
           Examples.stripe_labels [1; 1] [] L).
Defined.

Lemma polygons_add_no_error_witness :
  getDetBoxes Reference.ops Examples.two_lines_text Examples.two_lines_link
              (7 # 10) (4 # 10) (4 # 10) false = Ok Examples.two_lines_result
  /\ exists polys,
       getDetBoxes Reference.ops Examples.two_lines_text Examples.two_lines_link
                   (7 # 10) (4 # 10) (4 # 10) true
       = Ok (mkDetection (r_boxes Examples.two_lines_result)
                         (r_labels Examples.two_lines_result)
                         (r_mapper Examples.two_lines_result)
                         (r_num_characters Examples.two_lines_result)
                         (r_average_character_size Examples.two_lines_result)
                         (r_word_id Examples.two_lines_result) polys)
       /\ length polys = length (r_boxes Examples.two_lines_result).
Proof.
  assert (H : getDetBoxes Reference.ops Examples.two_lines_text Examples.two_lines_link
                (7 # 10) (4 # 10) (4 # 10) false = Ok Examples.two_lines_result)
    by (vm_compute; reflexivity).
  split; [exact H|].
  exact (@polygons_add_no_error _ _ _ _ _ _ _ H).
Defined.

Lemma blank_strip_unfit_witness :
  nth_error [2] 0 = Some 2
  /\ forallb (forallb (fun l => negb (Nat.eqb l 2)))
       (warpPerspective Reference.ops Examples.stripe_labels
          (transform_of Reference.ops Examples.narrow_box)
          (Z.to_nat (box_w Reference.ops Examples.narrow_box))
          (Z.to_nat (box_h Reference.ops Examples.narrow_box))) = true
  /\ getPoly_from Reference.ops Examples.stripe_labels [2] 0 [Examples.narrow_box]
     = Ok [None].
Proof.
  assert (N : nth_error [2] 0 = Some 2) by reflexivity.
  assert (B : forallb (forallb (fun l => negb (Nat.eqb l 2)))
       (warpPerspective Reference.ops Examples.stripe_labels
          (transform_of Reference.ops Examples.narrow_box)
          (Z.to_nat (box_w Reference.ops Examples.narrow_box))
          (Z.to_nat (box_h Reference.ops Examples.narrow_box))) = true)
    by (vm_compute; reflexivity).
  split; [exact N|]. split; [exact B|].
  exact (@blank_strip_unfit Reference.ops Examples.stripe_labels [2] 0
           Examples.narrow_box 2 N B).
Defined.
